(** * bls/api.py: request pagination, response validation and series parsing

    A shallow embedding of [src/bls/api.py].  Python integers are [Z], strings
    are [string], JSON objects are records, the insertion-ordered
    [defaultdict] of the pagination loop is an association list.  The
    process state the module reads and writes (the credential holder, the
    clock, the HTTP exchange, the two warning channels) is threaded
    explicitly through a small state-and-exception monad. *)

From Equations Require Import Equations.
From Stdlib Require Import ZArith List String Ascii Bool Lia.
From Stdlib Require Import Sorting.Permutation Sorting.Sorted.
Import ListNotations.

Open Scope string_scope.
Open Scope Z_scope.
Open Scope list_scope.

(** ** JSON data model *)

(** One element of a series' ["data"] list. *)
Record Observation := mkObservation {
  year : string;
  period : string;
  value : string
}.

(** One element of [response["Results"]["series"]]. *)
Record SeriesResult := mkSeriesResult {
  seriesID : string;
  data : list Observation
}.

(** The decoded JSON body of one response. *)
Record Envelope := mkEnvelope {
  status : string;
  message : list string;
  Results_series : list SeriesResult
}.

(** The form body handed to [requests.post]; [registrationkey] is present
    only when a key is used. *)
Record FormData := mkFormData {
  seriesid : string;
  startyear : Z;
  endyear : Z;
  registrationkey : option string
}.

(** The [series] argument: [Union[str, Sequence[str]]]. *)
Inductive SeriesArg :=
| Bare (s : string)
| Seq (l : list string).

(** ** Exceptions *)

(** The text of an exception, kept structured: each constructor is one
    f-string of the module (or one failure inside a collaborator). *)
Inductive Msg :=
| MustUseKey                       (* "Must use API key to retrieve more than 10 years" *)
| GotStatus (s : string)           (* f"Got status {response['status']}" *)
| NoDataSeries (id : string)       (* parse_series: f"No data received for series {id}! ..." *)
| NoDataIds (ids : list string)    (* get_series: f"No data received for series {invalid_ids}! ..." *)
| UnknownPeriod (p : string)       (* f"Unknown period format: {p}" *)
| DateParse                        (* raised by pd.to_datetime *)
| FloatConversion (v : string)     (* raised by float(v) *)
| DuplicateLabels.                 (* raised by pandas when aligning duplicated labels *)

Inductive Exn :=
| ValueError (m : Msg)
| RuntimeError (m : Msg)
| IndexError
| TransportError.

Inductive Result (A : Type) :=
| Ok (a : A)
| Raise (e : Exn).
Arguments Ok {A} a.
Arguments Raise {A} e.

(** ** Process state *)

Record World := mkWorld {
  KEY_key : option string;       (* _KEY.key *)
  today_year : Z;                (* datetime.date.today().year *)
  posted : list FormData;        (* every requests.post so far, oldest first *)
  log_warning : list string;     (* records sent to log.warning, oldest first *)
  warnings_warn : list Msg       (* messages given to warnings.warn, oldest first *)
}.

Definition Py (A : Type) := World -> Result A * World.

Definition ret {A} (a : A) : Py A := fun w => (Ok a, w).
Definition raise {A} (e : Exn) : Py A := fun w => (Raise e, w).
Definition bind {A B} (m : Py A) (k : A -> Py B) : Py B :=
  fun w => match m w with
           | (Ok a, w') => k a w'
           | (Raise e, w') => (Raise e, w')
           end.

Notation "x <- m ;; k" := (bind m (fun x => k))
  (at level 61, m at next level, right associativity).
Notation "m ;;; k" := (bind m (fun _ => k))
  (at level 61, right associativity).

Definition record_post (body : FormData) (w : World) : World :=
  mkWorld (KEY_key w) (today_year w) (posted w ++ [body]) (log_warning w) (warnings_warn w).

Definition record_log (ms : list string) (w : World) : World :=
  mkWorld (KEY_key w) (today_year w) (posted w) (log_warning w ++ ms) (warnings_warn w).

Definition record_warn (m : Msg) (w : World) : World :=
  mkWorld (KEY_key w) (today_year w) (posted w) (log_warning w) (warnings_warn w ++ [m]).

(** [set_api_key] and [unset_api_key]. *)
Definition set_api_key (key : string) : Py unit :=
  fun w => (Ok tt, mkWorld (Some key) (today_year w) (posted w) (log_warning w) (warnings_warn w)).

Definition unset_api_key : Py unit :=
  fun w => (Ok tt, mkWorld None (today_year w) (posted w) (log_warning w) (warnings_warn w)).

(** ** Strings *)

(** [",".join(series)]: over a [str] Python iterates its characters. *)
Fixpoint chars (s : string) : list string :=
  match s with
  | EmptyString => []
  | String c s' => String c EmptyString :: chars s'
  end.

Definition comma_join (series : SeriesArg) : string :=
  match series with
  | Bare s => String.concat "," (chars s)
  | Seq l => String.concat "," l
  end.

(** [len(series)]. *)
Definition len (series : SeriesArg) : nat :=
  match series with
  | Bare s => String.length s
  | Seq l => List.length l
  end.

(** [isinstance(series, str)]. *)
Definition is_str (series : SeriesArg) : bool :=
  match series with
  | Bare _ => true
  | Seq _ => false
  end.

Section Remote.

(** The provider: what [requests.post(BASE_URL, data=body).json()] yields,
    given the requests made before.  [None] stands for an exception raised
    by the transport or the JSON decoder. *)
Variable remote : list FormData -> FormData -> option Envelope.

(** ** [_get_json_subset] *)

Definition _get_json_subset (series : SeriesArg) (startyear endyear : Z)
    (key : option string) : Py (list SeriesResult) :=
  fun w =>
    let data := mkFormData (comma_join series) startyear endyear key in
    let w1 := record_post data w in
    match remote (posted w) data with
    | None => (Raise TransportError, w1)
    | Some response =>
        let w2 := record_log (message response) w1 in
        if negb (status response =? "REQUEST_SUCCEEDED")%string
        then (Raise (RuntimeError (GotStatus (status response))), w2)
        else (Ok (Results_series response), w2)
    end.

(** ** [get_json_series]

    The years enter as Python integers: [startyear] and [endyear] are the
    arguments after the [int(...)] of lines 69-70, [None] when not given. *)

(** Lines 74-78: the [endyear] step. *)
Definition resolve_endyear (startyear endyear : option Z) (key : option string)
    (thisyear : Z) : Z :=
  let clamp :=
    match startyear, key with
    | None, _ => thisyear
    | Some _, Some _ => thisyear
    | Some s, None => Z.min (s + 9) thisyear
    end in
  match endyear with
  | None => clamp
  | Some e => if e >? thisyear then clamp else e
  end.

(** Lines 80-81: [if not startyear] holds for [None] and for [0]. *)
Definition resolve_startyear (startyear : option Z) (endyear : Z)
    (key : option string) : Z :=
  let default := endyear - (match key with None => 9 | Some _ => 19 end) in
  match startyear with
  | None => default
  | Some s => if s =? 0 then default else s
  end.

(** [compiled_results[result["seriesID"]].extend(result["data"])] on the
    insertion-ordered [defaultdict(list)]. *)
Fixpoint extend (compiled : list (string * list Observation)) (result : SeriesResult)
    : list (string * list Observation) :=
  match compiled with
  | [] => [(seriesID result, [] ++ data result)]
  | (i, j) :: rest =>
      if (i =? seriesID result)%string
      then (i, j ++ data result) :: rest
      else (i, j) :: extend rest result
  end.

(** The [while True] loop of lines 89-94, entered with the current
    [sub_start], [sub_end] and accumulator. *)
Equations? pagination (series : SeriesArg) (key : option string) (endyear : Z)
    (compiled : list (string * list Observation)) (sub_start sub_end : Z) (w : World)
    : Result (list (string * list Observation)) * World
    by wf (Z.to_nat (endyear - sub_end)) lt :=
  pagination series key endyear compiled sub_start sub_end w
    with _get_json_subset series sub_start sub_end key w => {
    | (Raise e, w1) := (Raise e, w1);
    | (Ok results, w1) with Z_gt_dec (sub_end + 1) endyear => {
      | left _ := (Ok (fold_left extend results compiled), w1);
      | right _ := pagination series key endyear (fold_left extend results compiled)
                     (sub_end + 1) (Z.min (sub_end + 20) endyear) w1 } }.
Proof. lia. Qed.

Definition get_json_series (series : SeriesArg) (startyear endyear : option Z)
    (key : option string) : Py (list SeriesResult) :=
  fun w =>
    let series := match series with Bare s => Seq [s] | Seq l => Seq l end in
    let key := match key with Some k => Some k | None => KEY_key w end in
    let thisyear := today_year w in
    let endyear := resolve_endyear startyear endyear key thisyear in
    let startyear := resolve_startyear startyear endyear key in
    (* key is None and endyear - startyear >= 10 *)
    if match key with None => endyear - startyear >=? 10 | Some _ => false end
    then (Raise (ValueError MustUseKey), w)
    else if negb (startyear =? 0) && (endyear - startyear >=? 20)
    then
      match pagination series key endyear [] startyear (startyear + 18) w with
      | (Ok compiled_results, w') =>
          (Ok (map (fun '(i, j) => mkSeriesResult i j) compiled_results), w')
      | (Raise e, w') => (Raise e, w')
      end
    else _get_json_subset series startyear endyear key w.

End Remote.

(** ** pandas: the values [parse_series] and [get_series] build

    pandas is a collaborator of the module, not part of it.  Its date
    parser and Python's [float] are taken as parameters; periods, series
    and frames are modelled by the small executable definitions below. *)

(** What [pd.to_datetime] produces for one label. *)
Record Timestamp := mkTimestamp {
  ts_year : Z;
  ts_month : Z;
  ts_day : Z
}.

(** The three frequencies the module asks for: ["A-JAN"], ["Q"], ["M"]. *)
Inductive Freq := FreqA_JAN | FreqQ | FreqM.

(** A [pd.Period]: the year it is named after and, for quarters and
    months, the position inside the year. *)
Record Period := mkPeriod {
  freq : Freq;
  p_year : Z;
  p_sub : Z
}.

(** [.to_period(freq=...)] on one timestamp.  A year of frequency
    ["A-JAN"] ends in January and is named after the year it ends in. *)
Definition to_period (f : Freq) (t : Timestamp) : Period :=
  match f with
  | FreqA_JAN => mkPeriod FreqA_JAN (if ts_month t <=? 1 then ts_year t else ts_year t + 1) 0
  | FreqQ => mkPeriod FreqQ (ts_year t) ((ts_month t - 1) / 3 + 1)
  | FreqM => mkPeriod FreqM (ts_year t) (ts_month t)
  end.

Definition freq_eqb (f g : Freq) : bool :=
  match f, g with
  | FreqA_JAN, FreqA_JAN | FreqQ, FreqQ | FreqM, FreqM => true
  | _, _ => false
  end.

Definition period_eqb (p q : Period) : bool :=
  freq_eqb (freq p) (freq q) && (p_year p =? p_year q) && (p_sub p =? p_sub q).

(** Chronological order of the periods of one frequency. *)
Definition period_leb (p q : Period) : bool :=
  (p_year p <? p_year q) || ((p_year p =? p_year q) && (p_sub p <=? p_sub q)).

(** A [pd.Series]: labelled values, in row order; labels may repeat. *)
Definition Series (V : Type) := list (Period * V).

(** A [pd.DataFrame]: the column names and, per row, the label and one
    cell per column. *)
Record DataFrame (V : Type) := mkDataFrame {
  columns : list string;
  rows : list (Period * list V)
}.
Arguments mkDataFrame {V} columns rows.
Arguments columns {V} d.
Arguments rows {V} d.

(** [str.replace(old, new)] for a non-empty [old]: occurrences are replaced
    left to right without overlap; [skip] counts the characters of a
    replaced occurrence still to be passed over. *)
Fixpoint replace_from (skip : nat) (old new s : string) : string :=
  match s with
  | EmptyString => EmptyString
  | String c s' =>
      match skip with
      | S k => replace_from k old new s'
      | O => if String.prefix old s
             then (new ++ replace_from (String.length old - 1) old new s')%string
             else String c (replace_from 0 old new s')
      end
  end.

Definition replace (old new s : string) : string := replace_from 0 old new s.

(** Insertion of a row into rows sorted by label; equal labels keep their
    order. *)
Fixpoint insert_row {V} (r : Period * V) (l : list (Period * V)) : list (Period * V) :=
  match l with
  | [] => [r]
  | x :: l' => if period_leb (fst r) (fst x) then r :: l else x :: insert_row r l'
  end.

Fixpoint sort_rows {V} (l : list (Period * V)) : list (Period * V) :=
  match l with
  | [] => []
  | r :: l' => insert_row r (sort_rows l')
  end.

(** [df.sort_index()]. *)
Definition sort_index {V} (df : DataFrame V) : DataFrame V :=
  mkDataFrame (columns df) (sort_rows (rows df)).

Fixpoint index_eqb (i j : list Period) : bool :=
  match i, j with
  | [], [] => true
  | p :: i', q :: j' => period_eqb p q && index_eqb i' j'
  | _, _ => false
  end.

Fixpoint has_duplicates (i : list Period) : bool :=
  match i with
  | [] => false
  | p :: i' => existsb (period_eqb p) i' || has_duplicates i'
  end.

(** The labels of [i] without repetition, first occurrences kept. *)
Fixpoint unique (seen i : list Period) : list Period :=
  match i with
  | [] => []
  | p :: i' => if existsb (period_eqb p) seen then unique seen i'
               else p :: unique (p :: seen) i'
  end.

(** [s.get(p)]: the value at the first row labelled [p]. *)
Fixpoint lookup {V} (p : Period) (s : Series V) : option V :=
  match s with
  | [] => None
  | (q, v) :: s' => if period_eqb p q then Some v else lookup p s'
  end.

(** Rows of a frame whose columns all carry the index [idx]: row [n] holds
    the [n]-th value of every column. *)
Fixpoint positional_rows {V} (idx : list Period) (cols : list (list V))
    : list (Period * list (option V)) :=
  match idx with
  | [] => []
  | p :: idx' => (p, map (@hd_error V) cols) :: positional_rows idx' (map (@tl V) cols)
  end.

(** [pd.DataFrame(d)] for a dict [d] of series.  Columns are the keys of
    [d] in order.  When every series carries the same index the rows are
    taken as they stand; otherwise the index is the sorted union of the
    labels, each series is re-indexed on it (a missing cell is [None],
    pandas' NaN), and a series with a repeated label cannot be re-indexed. *)
Definition DataFrame_from_dict {V} (d : list (string * Series V))
    : Result (DataFrame (option V)) :=
  match d with
  | [] => Ok (mkDataFrame [] [])
  | (_, s0) :: _ =>
      if forallb (fun kv => index_eqb (map fst (snd kv)) (map fst s0)) d
      then Ok (mkDataFrame (map fst d)
                 (positional_rows (map fst s0) (map (fun kv => map snd (snd kv)) d)))
      else if existsb (fun kv => has_duplicates (map fst (snd kv))) d
      then Raise (ValueError DuplicateLabels)
      else
        let idx := unique [] (flat_map (fun kv => map fst (snd kv)) d) in
        Ok (mkDataFrame (map fst d)
              (sort_rows (map (fun p => (p, map (fun kv => lookup p (snd kv)) d)) idx)))
  end.

(** [d[k] = v] on an insertion-ordered dict. *)
Fixpoint dict_set {V} (d : list (string * V)) (k : string) (v : V) : list (string * V) :=
  match d with
  | [] => [(k, v)]
  | (k', v') :: d' =>
      if (k' =? k)%string then (k', v) :: d' else (k', v') :: dict_set d' k v
  end.

(** Running a fallible function over a list, left to right, stopping at
    the first exception. *)
Fixpoint traverse {A B} (f : A -> Result B) (l : list A) : Result (list B) :=
  match l with
  | [] => Ok []
  | a :: l' =>
      match f a with
      | Raise e => Raise e
      | Ok b => match traverse f l' with
                | Raise e => Raise e
                | Ok bs => Ok (b :: bs)
                end
      end
  end.

Definition lift {A} (r : Result A) : Py A := fun w => (r, w).

(** What [get_series] returns: a frame, or one named column of it. *)
Inductive Returned (F : Type) :=
| ReturnedFrame (df : DataFrame F)
| ReturnedSeries (name : string) (s : Series F).
Arguments ReturnedFrame {F} df.
Arguments ReturnedSeries {F} name s.

Section Pandas.

Variable remote : list FormData -> FormData -> option Envelope.

(** [pd.to_datetime] on a column of strings: the timestamps, one per
    string, or [None] when pandas raises.  It is taken on the whole column
    because pandas settles on one format for all its strings. *)
Variable to_datetime : list string -> option (list Timestamp).

(** Python floats, [float(s)] on a string ([None] when it raises) and
    the NaN that fills a missing cell. *)
Variable Float : Type.
Variable float : string -> option Float.
Variable nan : Float.

(** ** [parse_series] *)

(** [df.assign(date=dates) ... .set_index("date").to_period(freq=f)["value"]]:
    the rows of [df] labelled by the period of their date. *)
Definition value_by_period (f : Freq) (dated : list (Timestamp * Observation))
    : Series string :=
  map (fun r => (to_period f (fst r), value (snd r))) dated.

Definition parse_series (series : SeriesResult) : Result (Series string) :=
  match data series with
  | [] => Raise (ValueError (NoDataSeries (seriesID series)))
  | first :: _ =>
      let df := data series in
      match period first with
      | EmptyString => Raise IndexError
      | String freq _ =>
          if (freq =? "A")%char then
            match to_datetime (map year df) with
            | None => Raise (ValueError DateParse)
            | Some date => Ok (value_by_period FreqA_JAN (combine date df))
            end
          else if (freq =? "Q")%char then
            match to_datetime
                    (map (fun r => (year r ++ replace "Q0" "Q" (period r))%string) df) with
            | None => Raise (ValueError DateParse)
            | Some date => Ok (value_by_period FreqQ (combine date df))
            end
          else if (freq =? "M")%char then
            match to_datetime
                    (map (fun r => (year r ++ replace "M" "-" (period r))%string) df) with
            | None => Raise (ValueError DateParse)
            | Some date =>
                Ok (value_by_period FreqM
                      (filter (fun r => negb (period (snd r) =? "M13")%string)
                         (combine date df)))
            end
          else Raise (ValueError (UnknownPeriod (period first)))
      end
  end.

(** ** [get_series] *)

(** [invalid_ids]. *)
Definition invalid_ids (results : list SeriesResult) : list string :=
  map seriesID (filter (fun res => match data res with [] => true | _ => false end) results).

(** The dict comprehension of lines 175-179. *)
Fixpoint parsed_columns (results : list SeriesResult) (d : list (string * Series string))
    : Result (list (string * Series string)) :=
  match results with
  | [] => Ok d
  | result :: rest =>
      match data result with
      | [] => parsed_columns rest d
      | _ :: _ =>
          match parse_series result with
          | Raise e => Raise e
          | Ok s => parsed_columns rest (dict_set d (seriesID result) s)
          end
      end
  end.

(** [float] on one cell: NaN stays NaN. *)
Definition float_cell (c : option string) : Result Float :=
  match c with
  | None => Ok nan
  | Some v => match float v with
              | Some x => Ok x
              | None => Raise (ValueError (FloatConversion v))
              end
  end.

(** [df.map(float)]. *)
Definition map_float (df : DataFrame (option string)) : Result (DataFrame Float) :=
  match traverse (fun r => match traverse float_cell (snd r) with
                           | Raise e => Raise e
                           | Ok cells => Ok (fst r, cells)
                           end) (rows df) with
  | Raise e => Raise e
  | Ok rs => Ok (mkDataFrame (columns df) rs)
  end.

(** [df[df.columns[0]]]. *)
Definition first_column (df : DataFrame Float) : Result (Returned Float) :=
  match columns df with
  | [] => Raise IndexError
  | c :: _ => Ok (ReturnedSeries c (map (fun r => (fst r, hd nan (snd r))) (rows df)))
  end.

(** Lines 173-186: the frame of the series that have data, cast and
    sorted, or its first column when a bare string was asked for. *)
Definition assemble (series : SeriesArg) (results : list SeriesResult)
    : Result (Returned Float) :=
  match parsed_columns results [] with
  | Raise e => Raise e
  | Ok d =>
      match DataFrame_from_dict d with
      | Raise e => Raise e
      | Ok df =>
          match map_float df with
          | Raise e => Raise e
          | Ok df =>
              let df := sort_index df in
              if is_str series then first_column df else Ok (ReturnedFrame df)
          end
      end
  end.

Definition get_series (series : SeriesArg) (startyear endyear : option Z)
    (key : option string) (errors : string) : Py (Returned Float) :=
  results <- get_json_series remote series startyear endyear key ;;
  match invalid_ids results with
  | [] => ret tt
  | _ :: _ =>
      let errmsg := NoDataIds (invalid_ids results) in
      if is_str series
         || (List.length (invalid_ids results) =? len series)%nat
         || (errors =? "raise")%string
      then raise (ValueError errmsg)
      else fun w => (Ok tt, record_warn errmsg w)
  end ;;;
  lift (assemble series results).

End Pandas.

Arguments float_cell {Float} float nan c.
Arguments map_float {Float} float nan df.
Arguments first_column {Float} nan df.
Arguments assemble to_datetime {Float} float nan series results.
Arguments get_series remote to_datetime {Float} float nan series startyear endyear key errors.

(** ** The pagination plan, as the specification words it

    "Starting at [sub_start = start_year], issue a physical call for
    [[sub_start, sub_start+18]], then advance [sub_start = sub_end + 1],
    [sub_end = min(sub_end + 20, end_year)], until [sub_start > end_year]." *)

Equations? spec_windows_from (end_year sub_start sub_end : Z) : list (Z * Z)
    by wf (Z.to_nat (end_year - sub_end)) lt :=
  spec_windows_from end_year sub_start sub_end with Z_gt_dec (sub_end + 1) end_year => {
    | left _ := [(sub_start, sub_end)];
    | right _ := (sub_start, sub_end)
                 :: spec_windows_from end_year (sub_end + 1) (Z.min (sub_end + 20) end_year) }.
Proof. lia. Qed.

Definition spec_windows (start_year end_year : Z) : list (Z * Z) :=
  spec_windows_from end_year start_year (start_year + 18).

(** A list of year windows tiles the years from [lo] to [hi]: the first
    window starts at [lo], each next one starts the year after the previous
    one ends, none is empty, and the last one ends at [hi]. *)
Fixpoint tiles (lo hi : Z) (ws : list (Z * Z)) : Prop :=
  match ws with
  | [] => lo = hi + 1
  | (a, b) :: ws' => a = lo /\ a <= b /\ tiles (b + 1) hi ws'
  end.

(** Each window after the first is obtained from the previous one by the
    advance step. *)
Fixpoint advanced (end_year : Z) (ws : list (Z * Z)) : Prop :=
  match ws with
  | [] => True
  | w1 :: ws' =>
      match ws' with
      | [] => True
      | w2 :: _ => fst w2 = snd w1 + 1 /\ snd w2 = Z.min (snd w1 + 20) end_year
      end /\ advanced end_year ws'
  end.

(** The year [y] lies in the window [w]. *)
Definition covers (w : Z * Z) (y : Z) : Prop := fst w <= y <= snd w.

(** The observations a list of series results holds for the series [id],
    in list order. *)
Definition observations_of (id : string) (rs : list SeriesResult) : list Observation :=
  flat_map data (filter (fun r => (seriesID r =? id)%string) rs).

(** The form body of the physical call for one window. *)
Definition form_of (series : SeriesArg) (key : option string) (w : Z * Z) : FormData :=
  mkFormData (comma_join series) (fst w) (snd w) key.

(** [key if key is not None else _KEY.key]. *)
Definition current_key (key : option string) (w : World) : option string :=
  match key with
  | Some k => Some k
  | None => KEY_key w
  end.

(** The years [get_json_series] works with once lines 74-81 have run:
    [(startyear, endyear)]. *)
Definition resolved_years (startyear endyear : option Z) (key : option string)
    (w : World) : Z * Z :=
  let k := current_key key w in
  let e := resolve_endyear startyear endyear k (today_year w) in
  (resolve_startyear startyear e k, e).

(** The sequence [get_json_series] passes on: a bare string is wrapped. *)
Definition as_sequence (series : SeriesArg) : SeriesArg :=
  match series with
  | Bare s => Seq [s]
  | Seq l => Seq l
  end.

(** The accumulator [c] holds exactly the series of [done], each with its
    observations in the order of [done]. *)
Definition merged_of (c : list (string * list Observation)) (done : list SeriesResult)
    : Prop :=
  NoDup (map fst c) /\
  (forall i, In i (map fst c) <-> In i (map seriesID done)) /\
  (forall i j, In (i, j) c -> j = observations_of i done).

Section Replay.

Variable remote : list FormData -> FormData -> option Envelope.

(** The series lists the provider answers to [calls], issued in this order
    after [history]. *)
Fixpoint replay (history calls : list FormData) : list (list SeriesResult) :=
  match calls with
  | [] => []
  | c :: cs =>
      match remote history c with
      | Some response => Results_series response
      | None => []
      end :: replay (history ++ [c]) cs
  end.

End Replay.


Definition month_label (r : Observation) : string :=
  (year r ++ replace "M" "-" (period r))%string.

(** The monthly rows [parse_series] keeps, and the rows of the year [Y]. *)
Definition not_M13 (r : Observation) : bool := negb (period r =? "M13")%string.



(** Rows in ascending order of their labels. *)
Definition ascending {V} (l : list (Period * V)) : Prop :=
  StronglySorted (fun x y => period_leb (fst x) (fst y) = true) l.

(** ** Sample collaborators, for running the definitions *)

Module Sample.

Definition digit (c : ascii) : option Z :=
  let n := Z.of_nat (nat_of_ascii c) in
  if (48 <=? n) && (n <=? 57) then Some (n - 48) else None.

Fixpoint number (acc : Z) (s : string) : option Z :=
  match s with
  | EmptyString => Some acc
  | String c s' =>
      match digit c with
      | Some d => number (acc * 10 + d) s'
      | None => None
      end
  end.

(** A date parser that reads the digits of ["YYYY"], ["YYYYQn"] and
    ["YYYY-nn"] and does not validate them. *)
Definition date_of_label (s : string) : option Timestamp :=
  match number 0 (substring 0 4 s), substring 4 (String.length s - 4) s with
  | Some y, EmptyString => Some (mkTimestamp y 1 1)
  | Some y, String "Q" q =>
      match number 0 q with
      | Some n => Some (mkTimestamp y (3 * (n - 1) + 1) 1)
      | None => None
      end
  | Some y, String "-" m =>
      match number 0 m with
      | Some n => Some (mkTimestamp y n 1)
      | None => None
      end
  | _, _ => None
  end.

Fixpoint to_datetime (labels : list string) : option (list Timestamp) :=
  match labels with
  | [] => Some []
  | s :: rest =>
      match date_of_label s, to_datetime rest with
      | Some t, Some ts => Some (t :: ts)
      | _, _ => None
      end
  end.

(** Floats restricted to the naturals a digit string denotes; [None] is NaN. *)
Definition Float := option Z.
Definition float (s : string) : option Float :=
  match s with
  | EmptyString => None
  | _ => option_map (@Some Z) (number 0 s)
  end.
Definition nan : Float := None.


(** A provider that answers every request with one monthly series named
    after the requested ids. *)
Definition echo (_ : list FormData) (body : FormData) : option Envelope :=
  Some (mkEnvelope "REQUEST_SUCCEEDED" ["notice"]
          [mkSeriesResult (seriesid body)
             [mkObservation "2020" "M02" "2"; mkObservation "2020" "M01" "1"]]).

(** A provider that knows the series ["DEF"] and answers any other id with
    an empty series. *)
Definition known_DEF (_ : list FormData) (body : FormData) : option Envelope :=
  Some (mkEnvelope "REQUEST_SUCCEEDED" []
          [mkSeriesResult "ABC" [];
           mkSeriesResult "DEF" [mkObservation "2020" "Q03" "5"]]).

(** A provider that refuses every request. *)
Definition refusing (_ : list FormData) (_ : FormData) : option Envelope :=
  Some (mkEnvelope "REQUEST_NOT_PROCESSED" ["daily threshold reached"] []).

Definition world (key : option string) : World := mkWorld key 2024 [] [] [].

End Sample.

(** ** The credential holder at import, answers, labels *)

(** [Key().key]: [os.environ.get("BLS_API_KEY")]. *)
Definition Key (environ : string -> option string) : option string :=
  environ "BLS_API_KEY".

(** The process state once the module is imported ([_KEY = Key()]), in the
    year [thisyear], before any call. *)
Definition at_import (environ : string -> option string) (thisyear : Z) : World :=
  mkWorld (Key environ) thisyear [] [] [].

(** The answer to a physical call makes [_get_json_subset] raise. *)
Definition failed (answer : option Envelope) : Prop :=
  match answer with
  | None => True
  | Some response => status response <> "REQUEST_SUCCEEDED"
  end.

(** The exception [_get_json_subset] raises on a failed answer. *)
Definition raised_by (answer : option Envelope) : Exn :=
  match answer with
  | None => TransportError
  | Some response => RuntimeError (GotStatus (status response))
  end.

(** The requests [calls], posted in this order after [history], were all
    answered with success. *)
Fixpoint all_succeeded (remote : list FormData -> FormData -> option Envelope)
    (history calls : list FormData) : Prop :=
  match calls with
  | [] => True
  | c :: cs => ~ failed (remote history c) /\ all_succeeded remote (history ++ [c]) cs
  end.

(** The ids of [ids] in the order of their first occurrences. *)
Definition first_seen (ids : list string) : list string :=
  rev (nodup string_dec (rev ids)).

(** The character [c] does not occur in [s]. *)
Fixpoint lacks (c : ascii) (s : string) : Prop :=
  match s with
  | EmptyString => True
  | String c' s' => c' <> c /\ lacks c s'
  end.

(** The labels [parse_series] hands to [pd.to_datetime] for a series whose
    first period code starts with [c], one of "A", "Q", "M". *)
Definition date_labels (c : ascii) (df : list Observation) : list string :=
  if (c =? "A")%char then map year df
  else if (c =? "Q")%char
  then map (fun r => (year r ++ replace "Q0" "Q" (period r))%string) df
  else map month_label df.

(** The frequency [parse_series] asks for. *)
Definition freq_of (c : ascii) : Freq :=
  if (c =? "A")%char then FreqA_JAN else if (c =? "Q")%char then FreqQ else FreqM.

(** A period code without its first character: Python's [code[1:]]. *)
Definition after_letter (code : string) : string :=
  match code with
  | EmptyString => EmptyString
  | String _ rest => rest
  end.

(** The series has data: [if result["data"]]. *)
Definition has_data (res : SeriesResult) : bool :=
  match data res with
  | [] => false
  | _ :: _ => true
  end.

(** More sample collaborators. *)
Module Scenario.

(** A provider that cannot be reached. *)
Definition unreachable (_ : list FormData) (_ : FormData) : option Envelope := None.


(** A provider that answers with success and no series at all. *)
Definition silent (_ : list FormData) (_ : FormData) : option Envelope :=
  Some (mkEnvelope "REQUEST_SUCCEEDED" [] []).

(** A provider whose first window holds the series B then A, and whose
    later windows hold A then B. *)
Definition two_series (history : list FormData) (_ : FormData) : option Envelope :=
  let a := mkSeriesResult "A" [mkObservation "2000" "A01" "1"] in
  let b := mkSeriesResult "B" [mkObservation "2000" "A01" "2"] in
  Some (mkEnvelope "REQUEST_SUCCEEDED" []
          (match history with [] => [b; a] | _ :: _ => [a; b] end)).

(** A provider whose series has a value that is no number. *)
Definition with_gap (_ : list FormData) (body : FormData) : option Envelope :=
  Some (mkEnvelope "REQUEST_SUCCEEDED" []
          [mkSeriesResult (seriesid body)
             [mkObservation "2021" "A01" "3"; mkObservation "2020" "A01" "-";
              mkObservation "2019" "A01" "x"]]).

Definition environ (name : string) : option string :=
  if (name =? "BLS_API_KEY")%string then Some "from-environment" else None.

End Scenario.

(** * Properties *)

(** ** The windows of the pagination plan *)

Lemma spec_windows_from_step e a b :
  spec_windows_from e a b =
  if Z_gt_dec (b + 1) e then [(a, b)]
  else (a, b) :: spec_windows_from e (b + 1) (Z.min (b + 20) e).
Proof.
  rewrite spec_windows_from_equation_1.
  destruct (Z_gt_dec (b + 1) e); reflexivity.
Qed.

(** Induction on the distance of [sub_end] to [endyear], the quantity the
    loop decreases. *)
Lemma loop_induction (e : Z) (P : Z -> Prop) :
  (forall b, (forall b', b < b' <= e -> P b') -> P b) -> forall b, P b.
Proof.
  intros step b.
  remember (Z.to_nat (e - b)) as n eqn:Hn.
  revert b Hn. induction n as [n IH] using lt_wf_ind. intros b Hn.
  apply step. intros b' Hb'. apply (IH (Z.to_nat (e - b'))); [lia | reflexivity].
Qed.

Lemma spec_windows_from_head e a b :
  exists ws, spec_windows_from e a b = (a, b) :: ws.
Proof.
  rewrite spec_windows_from_step. destruct (Z_gt_dec (b + 1) e); eauto.
Qed.

Lemma spec_windows_from_tiles e b :
  forall a, a <= b -> b <= e -> tiles a e (spec_windows_from e a b).
Proof.
  induction b as [b IH] using (@loop_induction e). intros a Hab Hbe.
  rewrite spec_windows_from_step. destruct (Z_gt_dec (b + 1) e) as [Hgt | Hle].
  - simpl. lia.
  - simpl. repeat split; try lia. apply IH; lia.
Qed.

Lemma spec_windows_from_advanced e b :
  forall a, advanced e (spec_windows_from e a b).
Proof.
  induction b as [b IH] using (@loop_induction e). intros a.
  rewrite spec_windows_from_step. destruct (Z_gt_dec (b + 1) e) as [Hgt | Hle].
  - simpl. auto.
  - destruct (Z.le_gt_cases b e) as [Hb | Hb]; [| lia].
    assert (Hrec : advanced e (spec_windows_from e (b + 1) (Z.min (b + 20) e)))
      by (apply IH; lia).
    destruct (spec_windows_from_head e (b + 1) (Z.min (b + 20) e)) as [ws Hws].
    rewrite Hws in *. simpl. simpl in Hrec. auto.
Qed.

Lemma spec_windows_from_span e b :
  forall a, b - a <= 19 ->
  Forall (fun w => snd w - fst w <= 19) (spec_windows_from e a b).
Proof.
  induction b as [b IH] using (@loop_induction e). intros a Hspan.
  rewrite spec_windows_from_step. destruct (Z_gt_dec (b + 1) e) as [Hgt | Hle].
  - constructor; [simpl; lia | constructor].
  - constructor; [simpl; lia |]. apply IH; lia.
Qed.

Lemma tiles_within lo hi ws :
  tiles lo hi ws -> lo <= hi + 1 /\ Forall (fun w => lo <= fst w /\ snd w <= hi) ws.
Proof.
  revert lo. induction ws as [| [a b] ws IH]; simpl; intros lo H.
  - split; [lia | constructor].
  - destruct H as (-> & Hab & Ht). destruct (IH _ Ht) as [Hlo Hall].
    split; [lia |]. constructor; [simpl; lia |].
    eapply Forall_impl; [| exact Hall]. simpl. intros w Hw. lia.
Qed.

(** In a tiling every year of the range lies in exactly one window. *)
Lemma tiles_cover lo hi ws y :
  tiles lo hi ws -> lo <= y <= hi ->
  exists pre w post,
    ws = pre ++ w :: post /\ covers w y /\
    Forall (fun w' => ~ covers w' y) (pre ++ post).
Proof.
  revert lo. induction ws as [| [a b] ws IH]; simpl; intros lo H Hy.
  - lia.
  - destruct H as (-> & Hab & Ht).
    destruct (Z_le_gt_dec y b) as [Hyb | Hyb].
    + exists [], (lo, b), ws. simpl. repeat split; try (unfold covers; simpl; lia).
      destruct (tiles_within _ _ _ Ht) as [_ Hall].
      eapply Forall_impl; [| exact Hall]. unfold covers. simpl. intros w Hw. lia.
    + destruct (IH _ Ht) as (pre & w & post & -> & Hc & Hn); [lia |].
      exists ((lo, b) :: pre), w, post. simpl. repeat split; try apply Hc.
      constructor; [unfold covers; simpl; lia | exact Hn].
Qed.

(** ** The accumulator of the pagination loop *)

Lemma extend_keys c r i :
  In i (map fst (extend c r)) <-> In i (map fst c) \/ i = seriesID r.
Proof.
  induction c as [| [k v] c IH]; simpl.
  - intuition.
  - destruct (String.eqb_spec k (seriesID r)) as [-> | Hne]; simpl.
    + intuition.
    + rewrite IH. intuition.
Qed.

Lemma extend_NoDup c r :
  NoDup (map fst c) -> NoDup (map fst (extend c r)).
Proof.
  induction c as [| [k v] c IH]; simpl; intros Hnd.
  - constructor; [intros [] | constructor].
  - inversion Hnd as [| ? ? Hk Hc]; subst.
    destruct (String.eqb_spec k (seriesID r)) as [-> | Hne]; simpl.
    + constructor; assumption.
    + constructor; [| auto]. rewrite extend_keys. intros [H | H]; [auto | congruence].
Qed.

Lemma extend_entries c r i j :
  NoDup (map fst c) -> In (i, j) (extend c r) ->
  (i <> seriesID r /\ In (i, j) c) \/
  (i = seriesID r /\
   ((exists j0, In (i, j0) c /\ j = j0 ++ data r) \/
    (~ In i (map fst c) /\ j = data r))).
Proof.
  induction c as [| [k v] c IH]; simpl; intros Hnd Hin.
  - destruct Hin as [Heq | []]. inversion Heq; subst. right. split; [reflexivity |].
    right. split; [tauto | reflexivity].
  - inversion Hnd as [| ? ? Hk Hc]; subst.
    destruct (String.eqb_spec k (seriesID r)) as [-> | Hne]; simpl in Hin.
    + destruct Hin as [Heq | Hin].
      * inversion Heq; subst. right. split; [reflexivity |]. left. eauto.
      * left. split; [| auto]. intros ->. apply Hk.
        change (seriesID r) with (fst (seriesID r, j)). apply in_map. exact Hin.
    + destruct Hin as [Heq | Hin].
      * inversion Heq; subst. left. auto.
      * destruct (IH Hc Hin) as [[Hi Hc'] | [Hi [(j0 & Hj0 & Hj) | [Hnot Hj]]]].
        -- left. auto.
        -- right. split; [exact Hi |]. left. eauto.
        -- right. split; [exact Hi |]. right. split; [| exact Hj].
           intros [Hk' | Hk']; [congruence | auto].
Qed.

Lemma observations_of_app id rs rs' :
  observations_of id (rs ++ rs') = observations_of id rs ++ observations_of id rs'.
Proof. unfold observations_of. rewrite filter_app, flat_map_app. reflexivity. Qed.

Lemma observations_of_absent id rs :
  ~ In id (map seriesID rs) -> observations_of id rs = [].
Proof.
  unfold observations_of. induction rs as [| r rs IH]; simpl; intros Hnot; [reflexivity |].
  destruct (String.eqb_spec (seriesID r) id) as [Heq | Hne]; [tauto |].
  apply IH. tauto.
Qed.

Lemma observations_of_concat id rss :
  observations_of id (List.concat rss) = List.concat (map (observations_of id) rss).
Proof.
  induction rss as [| rs rss IH]; simpl; [reflexivity |].
  rewrite observations_of_app, IH. reflexivity.
Qed.

Lemma merged_of_extend c done r :
  merged_of c done -> merged_of (extend c r) (done ++ [r]).
Proof.
  intros (Hnd & Hkeys & Hdata). repeat split.
  - apply extend_NoDup. exact Hnd.
  - rewrite extend_keys, map_app, in_app_iff, Hkeys. simpl. intuition.
  - rewrite extend_keys, map_app, in_app_iff, Hkeys. simpl. intuition.
  - intros i j Hin. rewrite observations_of_app.
    unfold observations_of at 2. simpl.
    destruct (extend_entries _ _ _ _ Hnd Hin)
      as [[Hi Hc] | [Hi [(j0 & Hj0 & Hj) | [Hnot Hj]]]].
    + destruct (String.eqb_spec (seriesID r) i) as [Heq | _]; [congruence |].
      simpl. rewrite app_nil_r. auto.
    + subst i. rewrite String.eqb_refl. simpl. rewrite app_nil_r.
      rewrite Hj. f_equal. auto.
    + subst i. rewrite String.eqb_refl. simpl. rewrite app_nil_r.
      rewrite observations_of_absent; [exact Hj |]. rewrite <- Hkeys. exact Hnot.
Qed.

Lemma merged_of_fold rs :
  forall c done, merged_of c done -> merged_of (fold_left extend rs c) (done ++ rs).
Proof.
  induction rs as [| r rs IH]; simpl; intros c done H.
  - rewrite app_nil_r. exact H.
  - replace (done ++ r :: rs) with ((done ++ [r]) ++ rs)
      by (rewrite <- app_assoc; reflexivity).
    apply IH. apply merged_of_extend. exact H.
Qed.

Lemma merged_of_empty : merged_of [] [].
Proof.
  repeat split; simpl; try tauto. constructor.
Qed.

(** ** The physical calls *)

Section Calls.

Variable remote : list FormData -> FormData -> option Envelope.

Lemma get_json_subset_posted series a b key w :
  posted (snd (_get_json_subset remote series a b key w))
  = posted w ++ [form_of series key (a, b)].
Proof.
  unfold _get_json_subset, form_of. simpl.
  destruct (remote _ _) as [response |]; [| reflexivity].
  destruct (negb _); reflexivity.
Qed.

Lemma get_json_subset_Ok series a b key w results w1 :
  _get_json_subset remote series a b key w = (Ok results, w1) ->
  exists response,
    remote (posted w) (form_of series key (a, b)) = Some response /\
    status response = "REQUEST_SUCCEEDED" /\
    Results_series response = results.
Proof.
  unfold _get_json_subset, form_of. simpl.
  destruct (remote _ _) as [response |]; [| discriminate].
  destruct (String.eqb_spec (status response) "REQUEST_SUCCEEDED") as [Hs | Hs];
    simpl; [| discriminate].
  intros H. inversion H; subst. eauto.
Qed.

Lemma pagination_step series key e compiled a b w :
  pagination remote series key e compiled a b w =
  match _get_json_subset remote series a b key w with
  | (Raise ex, w1) => (Raise ex, w1)
  | (Ok results, w1) =>
      if Z_gt_dec (b + 1) e
      then (Ok (fold_left extend results compiled), w1)
      else pagination remote series key e (fold_left extend results compiled)
             (b + 1) (Z.min (b + 20) e) w1
  end.
Proof.
  simp pagination.
  destruct (_get_json_subset remote series a b key w) as [[results | ex] w1]; simpl.
  - destruct (Z_gt_dec (b + 1) e); reflexivity.
  - reflexivity.
Qed.

(** The loop issues the windows of the plan, in order; it stops early only
    on an exception, and when it returns it has merged every answer. *)
Lemma pagination_trace series key e b :
  forall a compiled w r w',
    pagination remote series key e compiled a b w = (r, w') ->
    exists issued rest,
      map (form_of series key) (spec_windows_from e a b) = issued ++ rest /\
      issued <> [] /\
      posted w' = posted w ++ issued /\
      (forall c, r = Ok c ->
         rest = [] /\
         c = fold_left extend (List.concat (replay remote (posted w) issued)) compiled).
Proof.
  induction b as [b IH] using (@loop_induction e). intros a compiled w r w'.
  rewrite pagination_step, spec_windows_from_step.
  pose proof (get_json_subset_posted series a b key w) as Hp.
  destruct (_get_json_subset remote series a b key w) as [[results | ex] w1] eqn:Hcall;
    simpl in Hp.
  - destruct (get_json_subset_Ok _ _ _ _ _ _ _ Hcall) as (response & Hr & _ & Hres).
    destruct (Z_gt_dec (b + 1) e) as [Hgt | Hle].
    + intros H. inversion H; subst r w'.
      exists [form_of series key (a, b)], [].
      split; [reflexivity | split; [discriminate | split; [exact Hp |]]].
      intros c Hc. inversion Hc; subst c. split; [reflexivity |].
      simpl. rewrite Hr, Hres, app_nil_r. reflexivity.
    + intros H. destruct (Z.le_gt_cases b e) as [Hbe | Hbe]; [| lia].
      destruct (IH (Z.min (b + 20) e) ltac:(lia) _ _ _ _ _ H)
        as (issued & rest & Hplan & Hne & Hpost & Hok).
      exists (form_of series key (a, b) :: issued), rest.
      split; [simpl; rewrite Hplan; reflexivity |].
      split; [discriminate |].
      split; [rewrite Hpost, Hp, <- app_assoc; reflexivity |].
      intros c Hc. destruct (Hok c Hc) as [Hrest ->]. split; [exact Hrest |].
      simpl. rewrite Hr, Hres, fold_left_app, Hp. reflexivity.
  - intros H. inversion H; subst r w'.
    exists [form_of series key (a, b)].
    destruct (Z_gt_dec (b + 1) e).
    + exists []. split; [reflexivity | split; [discriminate | split; [exact Hp |]]].
      intros c Hc. discriminate Hc.
    + eexists. split; [simpl; reflexivity | split; [discriminate | split; [exact Hp |]]].
      intros c Hc. discriminate Hc.
Qed.

(** When the provider answers every call with success, the loop returns. *)
Lemma pagination_returns series key e b :
  (forall h c, exists response,
      remote h c = Some response /\ status response = "REQUEST_SUCCEEDED") ->
  forall a compiled w,
  exists c, fst (pagination remote series key e compiled a b w) = Ok c.
Proof.
  intros Hremote.
  induction b as [b IH] using (@loop_induction e). intros a compiled w.
  rewrite pagination_step. unfold _get_json_subset.
  destruct (Hremote (posted w) (mkFormData (comma_join series) a b key))
    as (response & -> & ->). simpl.
  destruct (Z_gt_dec (b + 1) e) as [Hgt | Hle]; [simpl; eauto |].
  destruct (Z.le_gt_cases b e) as [Hbe | Hbe]; [| lia].
  apply IH. lia.
Qed.

End Calls.

(** ** [get_json_series] *)

Section GetJsonSeries.

Variable remote : list FormData -> FormData -> option Envelope.

Lemma get_json_series_eq series sy ey key w :
  get_json_series remote series sy ey key w =
  let k := current_key key w in
  let s := fst (resolved_years sy ey key w) in
  let e := snd (resolved_years sy ey key w) in
  if match k with None => e - s >=? 10 | Some _ => false end
  then (Raise (ValueError MustUseKey), w)
  else if negb (s =? 0) && (e - s >=? 20)
  then
    match pagination remote (as_sequence series) k e [] s (s + 18) w with
    | (Ok c, w') => (Ok (map (fun '(i, j) => mkSeriesResult i j) c), w')
    | (Raise ex, w') => (Raise ex, w')
    end
  else _get_json_subset remote (as_sequence series) s e k w.
Proof. reflexivity. Qed.

(** A start year that comes out of line 81 as 0 leaves a span of at most
    19 years, so the test [if startyear and ...] of line 86 never keeps a
    span of 20 years or more away from the loop. *)
Lemma resolve_startyear_zero sy e k :
  resolve_startyear sy e k = 0 -> e <= 19.
Proof.
  unfold resolve_startyear. intros H.
  assert (Hd : e - match k with Some _ => 19 | None => 9 end = 0 -> e <= 19)
    by (destruct k; lia).
  destruct sy as [s |]; [| auto].
  destruct (Z.eqb_spec s 0); [auto | congruence].
Qed.

Lemma resolved_years_zero sy ey key w e :
  resolved_years sy ey key w = (0, e) -> e <= 19.
Proof.
  unfold resolved_years. intros H. injection H as Hs He.
  apply resolve_startyear_zero in Hs. lia.
Qed.

Lemma map_series_keys (c : list (string * list Observation)) :
  map seriesID (map (fun '(i, j) => mkSeriesResult i j) c) = map fst c.
Proof.
  induction c as [| [i j] c IH]; simpl; [reflexivity | rewrite IH; reflexivity].
Qed.

(** C1. With a key and a resolved span of 20 years or more, the plan of
    physical calls starts with [[start_year, start_year+18]], each next
    window is [[sub_end+1, min(sub_end+20, end_year)]], and the windows tile
    [[start_year, end_year]]: every year lies in exactly one of them.  The
    calls [get_json_series] issues are the calls of this plan, in order and
    from the first on; it stops before the end of the plan only when a call
    raises.  When it returns, it has issued the whole plan, its result has
    one entry per series id answered, and the data of each entry is the
    concatenation, in call order, of the observations the answers hold for
    that id.  It does return when the provider answers every call with
    success. *)
Theorem get_json_series_pagination series sy ey key w k s e :
  current_key key w = Some k ->
  resolved_years sy ey key w = (s, e) ->
  e - s >= 20 ->
  let plan := spec_windows s e in
  let calls := map (form_of (as_sequence series) (Some k)) plan in
  let answers := replay remote (posted w) calls in
  (exists ws, plan = (s, s + 18) :: ws) /\
  advanced e plan /\
  tiles s e plan /\
  (forall y, s <= y <= e ->
     exists pre win post,
       plan = pre ++ win :: post /\ covers win y /\
       Forall (fun win' => ~ covers win' y) (pre ++ post)) /\
  (forall r w', get_json_series remote series sy ey key w = (r, w') ->
     exists issued rest,
       calls = issued ++ rest /\ issued <> [] /\ posted w' = posted w ++ issued /\
       forall merged, r = Ok merged ->
         rest = [] /\
         NoDup (map seriesID merged) /\
         (forall id, In id (map seriesID merged)
                     <-> In id (map seriesID (List.concat answers))) /\
         (forall res, In res merged ->
            data res = List.concat (map (observations_of (seriesID res)) answers))) /\
  ((forall h c, exists response,
       remote h c = Some response /\ status response = "REQUEST_SUCCEEDED") ->
   exists merged, fst (get_json_series remote series sy ey key w) = Ok merged).
Proof.
  intros Hk Hy Hspan plan calls answers.
  assert (Htiles : tiles s e plan)
    by (apply spec_windows_from_tiles; lia).
  assert (Hs : s <> 0).
  { intros ->. apply resolved_years_zero in Hy. lia. }
  assert (Hguard : negb (s =? 0) && (e - s >=? 20) = true).
  { destruct (Z.eqb_spec s 0); [contradiction |].
    destruct (Z.geb_spec (e - s) 20); [reflexivity | lia]. }
  split; [apply spec_windows_from_head |].
  split; [apply spec_windows_from_advanced |].
  split; [exact Htiles |].
  split; [intros y Hyr; apply (tiles_cover _ _ _ _ Htiles Hyr) |].
  split.
  - intros r w'. rewrite get_json_series_eq, Hk, Hy. simpl fst. simpl snd. cbv zeta.
    rewrite Hguard.
    destruct (pagination remote (as_sequence series) (Some k) e [] s (s + 18) w)
      as [[c | ex] w1] eqn:Hloop; intros H; inversion H; subst r w'.
    + destruct (pagination_trace _ _ _ _ _ _ _ _ _ _ Hloop)
        as (issued & rest & Hplan & Hne & Hpost & Hok).
      exists issued, rest. split; [exact Hplan | split; [exact Hne | split; [exact Hpost |]]].
      intros merged Hm. inversion Hm; subst merged.
      destruct (Hok c eq_refl) as [-> Hc].
      assert (Hcalls : issued = calls) by (rewrite app_nil_r in Hplan; auto).
      rewrite Hcalls in Hc. fold answers in Hc.
      destruct (merged_of_fold (List.concat answers) _ _ merged_of_empty)
        as (Hnd & Hkeys & Hdata). simpl in Hnd, Hkeys, Hdata. rewrite <- Hc in *.
      split; [reflexivity |].
      split; [rewrite map_series_keys; exact Hnd |].
      split; [intros id; rewrite map_series_keys; apply Hkeys |].
      intros res Hin. apply in_map_iff in Hin. destruct Hin as ([i j] & <- & Hin).
      simpl. rewrite <- observations_of_concat. apply Hdata. exact Hin.
    + destruct (pagination_trace _ _ _ _ _ _ _ _ _ _ Hloop)
        as (issued & rest & Hplan & Hne & Hpost & _).
      exists issued, rest. split; [exact Hplan | split; [exact Hne | split; [exact Hpost |]]].
      intros merged Hm. discriminate Hm.
  - intros Hremote. rewrite get_json_series_eq, Hk, Hy. simpl fst. simpl snd. cbv zeta.
    rewrite Hguard.
    destruct (pagination_returns remote (as_sequence series) (Some k) e (s + 18)
                Hremote s [] w) as [c Hc].
    destruct (pagination remote (as_sequence series) (Some k) e [] s (s + 18) w)
      as [[c' | ex] w1]; simpl in Hc; [simpl; eauto | discriminate].
Qed.

(** Every call of [get_json_series] appends its physical calls to the
    record of requests; each carries the comma-join of the wrapped
    sequence, the key in force, and a span within the limit for that key. *)
Lemma get_json_series_issued series sy ey key w :
  exists issued,
    posted (snd (get_json_series remote series sy ey key w)) = posted w ++ issued /\
    Forall (fun c =>
              seriesid c = comma_join (as_sequence series) /\
              registrationkey c = current_key key w /\
              endyear c - startyear c
              <= match current_key key w with None => 9 | Some _ => 19 end) issued.
Proof.
  rewrite get_json_series_eq.
  destruct (resolved_years sy ey key w) as [s e] eqn:Hy. simpl fst. simpl snd. cbv zeta.
  assert (Hzero : s = 0 -> e <= 19).
  { intros ->. apply resolved_years_zero in Hy. exact Hy. }
  assert (Hsingle :
    forall k, e - s <= match k with None => 9 | Some _ => 19 end ->
    exists issued,
      posted (snd (_get_json_subset remote (as_sequence series) s e k w))
      = posted w ++ issued /\
      Forall (fun c =>
                seriesid c = comma_join (as_sequence series) /\
                registrationkey c = k /\
                endyear c - startyear c
                <= match k with None => 9 | Some _ => 19 end) issued).
  { intros k Hk. exists [form_of (as_sequence series) k (s, e)].
    split; [apply get_json_subset_posted |].
    constructor; [| constructor]. simpl. auto. }
  destruct (current_key key w) as [k |].
  - destruct (Z.eqb_spec s 0) as [H0 | H0]; simpl.
    + apply Hsingle. specialize (Hzero H0). lia.
    + destruct (Z.geb_spec (e - s) 20) as [Hge | Hlt].
      * destruct (pagination remote (as_sequence series) (Some k) e [] s (s + 18) w)
          as [r w1] eqn:Hloop.
        destruct (pagination_trace _ _ _ _ _ _ _ _ _ _ Hloop)
          as (issued & rest & Hplan & _ & Hpost & _).
        exists issued. split; [destruct r; exact Hpost |].
        assert (Hall : Forall (fun c =>
                  seriesid c = comma_join (as_sequence series) /\
                  registrationkey c = Some k /\
                  endyear c - startyear c <= 19) (issued ++ rest)).
        { rewrite <- Hplan. apply Forall_map.
          eapply Forall_impl; [| apply (spec_windows_from_span e (s + 18) s); lia].
          simpl. auto. }
        apply Forall_app in Hall. apply Hall.
      * apply Hsingle. lia.
  - destruct (Z.geb_spec (e - s) 10) as [Hge | Hlt].
    + exists []. simpl. rewrite app_nil_r. split; [reflexivity | constructor].
    + replace (negb (s =? 0) && (e - s >=? 20)) with false.
      * apply Hsingle. lia.
      * destruct (Z.geb_spec (e - s) 20); [lia |]. rewrite andb_false_r. reflexivity.
Qed.

(** C8. Every physical call a call of [get_json_series] issues spans at
    most 9 years when no key is in force and at most 19 years when one is,
    on the single-call path and for every window of the loop. *)
Theorem physical_calls_within_limit series sy ey key w :
  exists issued,
    posted (snd (get_json_series remote series sy ey key w)) = posted w ++ issued /\
    Forall (fun c =>
              registrationkey c = current_key key w /\
              endyear c - startyear c
              <= match current_key key w with None => 9 | Some _ => 19 end) issued.
Proof.
  destruct (get_json_series_issued series sy ey key w) as (issued & Hpost & Hall).
  exists issued. split; [exact Hpost |].
  eapply Forall_impl; [| exact Hall]. simpl. tauto.
Qed.

(** C3. Without a key, neither passed nor held in [_KEY], a resolved span
    of 10 years or more makes [get_json_series] raise the [ValueError] and
    leave the process state as it was: no request is posted. *)
Theorem unkeyed_long_span_raises series sy ey key w s e :
  current_key key w = None ->
  resolved_years sy ey key w = (s, e) ->
  e - s >= 10 ->
  get_json_series remote series sy ey key w = (Raise (ValueError MustUseKey), w).
Proof.
  intros Hk Hy Hspan. rewrite get_json_series_eq, Hk, Hy. simpl.
  destruct (Z.geb_spec (e - s) 10); [reflexivity | lia].
Qed.

(** C9. A bare string is wrapped into a one-element sequence before any
    request is built: the call behaves as the call on [[s]], and every form
    body it posts carries [s] itself as [seriesid]. *)
Theorem bare_string_is_wrapped s sy ey key w :
  get_json_series remote (Bare s) sy ey key w
  = get_json_series remote (Seq [s]) sy ey key w /\
  exists issued,
    posted (snd (get_json_series remote (Bare s) sy ey key w)) = posted w ++ issued /\
    Forall (fun c => seriesid c = s) issued.
Proof.
  split; [reflexivity |].
  destruct (get_json_series_issued (Bare s) sy ey key w) as (issued & Hpost & Hall).
  exists issued. split; [exact Hpost |].
  eapply Forall_impl; [| exact Hall]. simpl. intros c (Hc & _). exact Hc.
Qed.

(** C6. Given the envelope of a physical call, [_get_json_subset] logs
    every entry of its message list as a warning, whatever the status; it
    raises exactly when the status is not ["REQUEST_SUCCEEDED"], and then
    the [RuntimeError] that carries the status; otherwise it returns the
    list at [Results.series]. *)
Theorem get_json_subset_validates series a b key w response :
  remote (posted w) (form_of series key (a, b)) = Some response ->
  let r := fst (_get_json_subset remote series a b key w) in
  let w' := snd (_get_json_subset remote series a b key w) in
  log_warning w' = log_warning w ++ message response /\
  (r = Raise (RuntimeError (GotStatus (status response)))
   <-> status response <> "REQUEST_SUCCEEDED") /\
  ((exists ex, r = Raise ex) <-> status response <> "REQUEST_SUCCEEDED") /\
  (status response = "REQUEST_SUCCEEDED" -> r = Ok (Results_series response)).
Proof.
  unfold _get_json_subset, form_of. simpl. intros ->.
  destruct (String.eqb_spec (status response) "REQUEST_SUCCEEDED") as [Hs | Hs]; simpl.
  - split; [reflexivity |]. split; [| split]; try tauto.
    + split; [discriminate | tauto].
    + split; [intros [ex Hex]; discriminate | tauto].
  - split; [reflexivity |]. split; [| split]; try tauto.
    split; eauto.
Qed.

End GetJsonSeries.

(** ** [parse_series] *)

Section ParseSeries.

Variable to_datetime : list string -> option (list Timestamp).

(** C10. On a series with data, whether [parse_series] raises the
    unknown-period [ValueError] is decided by the first character of the
    first observation's period code alone: it is raised exactly when that
    character exists and is none of "A", "Q", "M", and it then quotes the
    first period code.  The later observations play no part. *)
Theorem unknown_period_decided_by_first_character series first rest :
  data series = first :: rest ->
  ((exists p, parse_series to_datetime series = Raise (ValueError (UnknownPeriod p)))
   <-> exists c tail, period first = String c tail /\
                      c <> "A"%char /\ c <> "Q"%char /\ c <> "M"%char) /\
  (forall p, parse_series to_datetime series = Raise (ValueError (UnknownPeriod p)) ->
             p = period first) /\
  (forall series' rest',
     data series' = first :: rest' ->
     ((exists p, parse_series to_datetime series = Raise (ValueError (UnknownPeriod p)))
      <-> (exists p, parse_series to_datetime series'
                     = Raise (ValueError (UnknownPeriod p))))).
Proof.
  intros Hdata.
  assert (Hmain : forall sr rs, data sr = first :: rs ->
    ((exists p, parse_series to_datetime sr = Raise (ValueError (UnknownPeriod p)))
     <-> exists c tail, period first = String c tail /\
                        c <> "A"%char /\ c <> "Q"%char /\ c <> "M"%char) /\
    (forall p, parse_series to_datetime sr = Raise (ValueError (UnknownPeriod p)) ->
               p = period first)).
  { intros sr rs Hsr. unfold parse_series. rewrite Hsr.
    destruct (period first) as [| c tail] eqn:Hp.
    - split; [| discriminate].
      split; [intros [p H]; discriminate | intros (c & tail & H & _); discriminate].
    - destruct (Ascii.eqb_spec c "A") as [HA | HA].
      { destruct (to_datetime _); split; try discriminate;
          (split; [intros [p H]; discriminate
                  | intros (c' & t' & H & Hc & _); inversion H; congruence]). }
      destruct (Ascii.eqb_spec c "Q") as [HQ | HQ].
      { destruct (to_datetime _); split; try discriminate;
          (split; [intros [p H]; discriminate
                  | intros (c' & t' & H & _ & Hc & _); inversion H; congruence]). }
      destruct (Ascii.eqb_spec c "M") as [HM | HM].
      { destruct (to_datetime _); split; try discriminate;
          (split; [intros [p H]; discriminate
                  | intros (c' & t' & H & _ & _ & Hc); inversion H; congruence]). }
      split.
      + split; [intros _; exists c, tail; auto | intros _; eauto].
      + intros p H. inversion H. reflexivity. }
  destruct (Hmain series rest Hdata) as [Hiff Hquote].
  split; [exact Hiff | split; [exact Hquote |]].
  intros series' rest' Hdata'. destruct (Hmain series' rest' Hdata') as [Hiff' _].
  rewrite Hiff, Hiff'. reflexivity.
Qed.

Lemma combine_snd {A B} (l : list A) (l' : list B) :
  List.length l = List.length l' -> map snd (combine l l') = l'.
Proof.
  revert l'. induction l as [| a l IH]; destruct l' as [| b l']; simpl;
    intros H; try discriminate; [reflexivity |].
  f_equal. apply IH. congruence.
Qed.

Lemma filter_on_snd {A B} (f : B -> bool) (l : list (A * B)) :
  map snd (filter (fun r => f (snd r)) l) = filter f (map snd l).
Proof.
  induction l as [| r l IH]; simpl; [reflexivity |].
  destruct (f (snd r)); simpl; rewrite IH; reflexivity.
Qed.





Lemma parse_series_monthly series first rest tail :
  data series = first :: rest ->
  period first = String "M" tail ->
  parse_series to_datetime series =
  match to_datetime (map month_label (data series)) with
  | Some date =>
      Ok (value_by_period FreqM
            (filter (fun r => not_M13 (snd r)) (combine date (data series))))
  | None => Raise (ValueError DateParse)
  end.
Proof.
  intros Hdata Hfirst. unfold parse_series.
  destruct (data series) as [| o l]; [discriminate |].
  injection Hdata as -> ->. rewrite Hfirst. reflexivity.
Qed.


(** The dates of all the rows, "M13" rows included, are computed before
    any row is dropped: when pandas rejects a label, [parse_series] raises. *)
Lemma monthly_series_dates_first series first rest tail :
  data series = first :: rest ->
  period first = String "M" tail ->
  to_datetime (map month_label (data series)) = None ->
  parse_series to_datetime series = Raise (ValueError DateParse).
Proof.
  intros Hdata Hfirst Hdates.
  rewrite (parse_series_monthly _ _ _ _ Hdata Hfirst), Hdates. reflexivity.
Qed.

End ParseSeries.

(** ** Sorting rows by label *)

Lemma period_leb_total p q : period_leb p q = false -> period_leb q p = true.
Proof.
  unfold period_leb. intros H.
  apply orb_false_iff in H. destruct H as [H1 H2].
  apply Z.ltb_ge in H1.
  destruct (Z.eqb_spec (p_year p) (p_year q)) as [Heq | Hne]; simpl in H2.
  - apply Z.leb_gt in H2. apply orb_true_iff. right.
    apply andb_true_iff. split; [apply Z.eqb_eq; lia | apply Z.leb_le; lia].
  - apply orb_true_iff. left. apply Z.ltb_lt. lia.
Qed.

Lemma period_leb_trans p q r :
  period_leb p q = true -> period_leb q r = true -> period_leb p r = true.
Proof.
  unfold period_leb. rewrite !orb_true_iff, !andb_true_iff.
  rewrite !Z.ltb_lt, !Z.eqb_eq, !Z.leb_le. lia.
Qed.

Section Rows.

Context {V : Type}.

Lemma insert_row_perm (r : Period * V) l : Permutation (r :: l) (insert_row r l).
Proof.
  induction l as [| x l IH]; simpl; [reflexivity |].
  destruct (period_leb (fst r) (fst x)); [reflexivity |].
  rewrite perm_swap. constructor. exact IH.
Qed.

Lemma sort_rows_perm (l : list (Period * V)) : Permutation l (sort_rows l).
Proof.
  induction l as [| r l IH]; simpl; [constructor |].
  rewrite <- insert_row_perm. constructor. exact IH.
Qed.

Lemma insert_row_sorted (r : Period * V) l :
  Sorted (fun x y => period_leb (fst x) (fst y) = true) l ->
  Sorted (fun x y => period_leb (fst x) (fst y) = true) (insert_row r l).
Proof.
  induction l as [| x l IH]; simpl; intros Hs.
  - constructor; constructor.
  - destruct (period_leb (fst r) (fst x)) eqn:Hle.
    + constructor; [exact Hs | constructor; exact Hle].
    + inversion Hs as [| ? ? Hl Hhd]; subst.
      constructor; [apply IH; exact Hl |].
      destruct l as [| y l]; simpl.
      * constructor. apply period_leb_total. exact Hle.
      * destruct (period_leb (fst r) (fst y)).
        -- constructor. apply period_leb_total. exact Hle.
        -- inversion Hhd; subst. constructor. assumption.
Qed.

Lemma sort_rows_ascending (l : list (Period * V)) : ascending (sort_rows l).
Proof.
  apply Sorted_StronglySorted.
  - intros x y z. apply period_leb_trans.
  - induction l as [| r l IH]; simpl; [constructor | apply insert_row_sorted; exact IH].
Qed.

End Rows.

(** Sorting commutes with a map that keeps the labels. *)
Lemma sort_rows_map {V W} (g : Period * V -> Period * W) (l : list (Period * V)) :
  (forall r, fst (g r) = fst r) ->
  map g (sort_rows l) = sort_rows (map g l).
Proof.
  intros Hg.
  assert (Hins : forall r l', map g (insert_row r l') = insert_row (g r) (map g l')).
  { intros r l'. induction l' as [| x l' IH]; simpl; [reflexivity |].
    rewrite !Hg. destruct (period_leb (fst r) (fst x)); simpl; [reflexivity |].
    rewrite IH. reflexivity. }
  induction l as [| r l IH]; simpl; [reflexivity |].
  rewrite Hins, IH. reflexivity.
Qed.

Lemma period_eqb_refl p : period_eqb p p = true.
Proof.
  unfold period_eqb. rewrite !Z.eqb_refl. destruct (freq p); reflexivity.
Qed.

Lemma index_eqb_refl i : index_eqb i i = true.
Proof.
  induction i as [| p i IH]; simpl; [reflexivity |].
  rewrite period_eqb_refl, IH. reflexivity.
Qed.



Lemma positional_rows_single {V} (s : Series V) :
  positional_rows (map fst s) [map snd s]
  = map (fun pv => (fst pv, [Some (snd pv)])) s.
Proof.
  induction s as [| [p v] s IH]; simpl; [reflexivity |].
  rewrite IH. reflexivity.
Qed.


(** ** [get_series] *)

Section GetSeries.

Variable remote : list FormData -> FormData -> option Envelope.
Variable to_datetime : list string -> option (list Timestamp).
Variable Float : Type.
Variable float : string -> option Float.
Variable nan : Float.

(** What [get_series] does once [get_json_series] has returned. *)
Lemma get_series_eq series sy ey key errors w results w1 :
  get_json_series remote series sy ey key w = (Ok results, w1) ->
  get_series remote to_datetime float nan series sy ey key errors w =
  match invalid_ids results with
  | [] => (assemble to_datetime float nan series results, w1)
  | _ :: _ =>
      if is_str series
         || (List.length (invalid_ids results) =? len series)%nat
         || (errors =? "raise")%string
      then (Raise (ValueError (NoDataIds (invalid_ids results))), w1)
      else (assemble to_datetime float nan series results, record_warn (NoDataIds (invalid_ids results)) w1)
  end.
Proof.
  intros Hjson. unfold get_series, bind. rewrite Hjson.
  destruct (invalid_ids results) as [| i ids]; [reflexivity |].
  destruct (is_str series || _ || _); reflexivity.
Qed.




Lemma DataFrame_from_dict_columns {V} (d : list (string * Series V)) df :
  DataFrame_from_dict d = Ok df -> columns df = map fst d.
Proof.
  unfold DataFrame_from_dict. destruct d as [| [k s0] d]; [intros H; inversion H; reflexivity |].
  destruct (forallb _ _); [intros H; inversion H; reflexivity |].
  destruct (existsb _ _); [discriminate | intros H; inversion H; reflexivity].
Qed.



Lemma map_float_columns df df' :
  map_float float nan df = Ok df' -> columns df' = columns df.
Proof.
  unfold map_float. destruct (traverse _ _); [| discriminate].
  intros H. inversion H. reflexivity.
Qed.




(** For a bare string, one column in ascending order of its labels. *)
Lemma assemble_bare s results ret :
  assemble to_datetime float nan (Bare s) results = Ok ret ->
  exists name col, ret = ReturnedSeries name col /\ ascending col.
Proof.
  unfold assemble.
  destruct (parsed_columns to_datetime results []) as [d | e1]; [| discriminate].
  destruct (DataFrame_from_dict d) as [df | e2]; [| discriminate].
  destruct (map_float float nan df) as [df' | e3]; [| discriminate].
  simpl. unfold first_column. simpl. destruct (columns df') as [| c cs]; [discriminate |].
  intros H. inversion H; subst. do 2 eexists. split; [reflexivity |].
  rewrite sort_rows_map; [apply sort_rows_ascending | reflexivity].
Qed.

(** The rows of a one-column frame after [map(float)]. *)
Lemma cast_single_column (parsed : Series string) :
  Forall (fun pv => float (snd pv) <> None) parsed ->
  exists casted : Series Float,
    Forall2 (fun pv px => fst px = fst pv /\ float (snd pv) = Some (snd px)) parsed casted /\
    traverse (fun r => match traverse (float_cell float nan) (snd r) with
                       | Raise e => Raise e
                       | Ok cells => Ok (fst r, cells)
                       end)
      (map (fun pv => (fst pv, [Some (snd pv)])) parsed)
    = Ok (map (fun px => (fst px, [snd px])) casted).
Proof.
  induction parsed as [| [p v] parsed IH]; intros Hall.
  - exists []. split; [constructor | reflexivity].
  - inversion Hall as [| ? ? Hv Hrest]; subst. simpl in Hv.
    destruct (IH Hrest) as (casted & Hrel & Ht).
    destruct (float v) as [x |] eqn:Hx; [| congruence].
    exists ((p, x) :: casted). split.
    + constructor; [simpl; auto | exact Hrel].
    + simpl. rewrite Hx. simpl. rewrite Ht. reflexivity.
Qed.

(** One returned series with data, asked for by a bare string. *)
Lemma assemble_single s res parsed :
  data res <> [] ->
  parse_series to_datetime res = Ok parsed ->
  Forall (fun pv => float (snd pv) <> None) parsed ->
  exists casted : Series Float,
    Forall2 (fun pv px => fst px = fst pv /\ float (snd pv) = Some (snd px)) parsed casted /\
    assemble to_datetime float nan (Bare s) [res] = Ok (ReturnedSeries (seriesID res) (sort_rows casted)).
Proof.
  intros Hdata Hparse Hall.
  destruct (cast_single_column _ Hall) as (casted & Hrel & Ht).
  exists casted. split; [exact Hrel |].
  unfold assemble. simpl.
  destruct (data res) as [| o l]; [congruence |].
  rewrite Hparse. simpl. rewrite index_eqb_refl. simpl.
  unfold map_float. simpl. rewrite positional_rows_single, Ht.
  unfold first_column. simpl. do 2 f_equal.
  rewrite sort_rows_map by reflexivity. rewrite map_map. simpl.
  f_equal. rewrite <- (map_id casted) at 2. apply map_ext. intros [p x]. reflexivity.
Qed.



(** C7. When the series argument is a bare string, whatever [get_series]
    returns is a single column, not a frame, in ascending order of its
    period labels.  When the provider has returned the one series asked
    for, with data that parse and values that [float] accepts, the call
    returns that series: its entries are the parsed entries with [float]
    applied to each value, sorted by label. *)
Theorem get_series_bare_string s sy ey key errors w :
  (forall ret w',
     get_series remote to_datetime float nan (Bare s) sy ey key errors w = (Ok ret, w') ->
     exists name col, ret = ReturnedSeries name col /\ ascending col) /\
  (forall res w1 parsed,
     get_json_series remote (Bare s) sy ey key w = (Ok [res], w1) ->
     data res <> [] ->
     parse_series to_datetime res = Ok parsed ->
     Forall (fun pv => float (snd pv) <> None) parsed ->
     exists col casted,
       get_series remote to_datetime float nan (Bare s) sy ey key errors w
       = (Ok (ReturnedSeries (seriesID res) col), w1) /\
       Forall2 (fun pv px => fst px = fst pv /\ float (snd pv) = Some (snd px))
         parsed casted /\
       Permutation casted col /\
       ascending col).
Proof.
  split.
  - intros ret w' H.
    destruct (get_json_series remote (Bare s) sy ey key w) as [[results | e] w1] eqn:Hjson.
    + rewrite (get_series_eq _ _ _ _ errors _ _ _ Hjson) in H.
      destruct (invalid_ids results); simpl in H.
      * inversion H as [[Hret Hw]]. apply (assemble_bare _ _ _ Hret).
      * discriminate.
    + unfold get_series, bind in H. rewrite Hjson in H. discriminate.
  - intros res w1 parsed Hjson Hdata Hparse Hall.
    destruct (assemble_single s res parsed Hdata Hparse Hall) as (casted & Hrel & Hasm).
    exists (sort_rows casted), casted.
    split; [| split; [exact Hrel | split; [apply sort_rows_perm | apply sort_rows_ascending]]].
    rewrite (get_series_eq _ _ _ _ errors _ _ _ Hjson).
    unfold invalid_ids. simpl. destruct (data res); [congruence |]. simpl.
    rewrite Hasm. reflexivity.
Qed.

End GetSeries.

(** ** The resolution of the years *)

(** The two steps of lines 74-81 on a start year that is unset or not 0. *)
Lemma resolved_years_spec sy ey key w :
  let k := current_key key w in
  let thisyear := today_year w in
  let s := fst (resolved_years sy ey key w) in
  let e := snd (resolved_years sy ey key w) in
  (match ey with
   | Some y => y <= thisyear -> e = y
   | None => True
   end) /\
  ((ey = None \/ exists y, ey = Some y /\ y > thisyear) ->
   match sy, k with
   | None, _ => e = thisyear
   | Some _, Some _ => e = thisyear
   | Some s0, None => e = Z.min (s0 + 9) thisyear
   end) /\
  (sy = None -> s = e - match k with None => 9 | Some _ => 19 end) /\
  (forall s0, sy = Some s0 -> s0 <> 0 -> s = s0).
Proof.
  unfold resolved_years, resolve_startyear, resolve_endyear. simpl.
  repeat split.
  - destruct ey as [y |]; [| exact I]. intros Hy.
    destruct (Z.gtb_spec y (today_year w)); [lia | reflexivity].
  - intros [-> | (y & -> & Hy)].
    + destruct sy, (current_key key w); reflexivity.
    + destruct (Z.gtb_spec y (today_year w)); [| lia].
      destruct sy, (current_key key w); reflexivity.
  - intros ->. reflexivity.
  - intros s0 -> Hs0. destruct (Z.eqb_spec s0 0); [contradiction | reflexivity].
Qed.

(** C2, where the code departs from it: a start year the caller sets to 0
    is taken by [if not startyear] for an unset one and replaced by
    [endyear - 19] (with a key), so the request posted starts in 1986. *)
Theorem start_year_zero_is_replaced :
  resolve_startyear (Some 0) 2005 (Some "k") = 1986 /\
  resolved_years (Some 0) (Some 2005) (Some "k") (Sample.world None) = (1986, 2005) /\
  posted (snd (get_json_series Sample.echo (Bare "LNS14000000") (Some 0) (Some 2005)
                 (Some "k") (Sample.world None)))
  = [mkFormData "LNS14000000" 1986 2005 (Some "k")].
Proof. repeat split. Qed.

(** ** Runs on the sample collaborators *)

Example pagination_run :
  posted (snd (get_json_series Sample.echo (Bare "LNS14000000") (Some 1960) None
                 (Some "k") (Sample.world None)))
  = map (form_of (Seq ["LNS14000000"]) (Some "k"))
      [(1960, 1978); (1979, 1998); (1999, 2018); (2019, 2024)].
Proof. reflexivity. Qed.

Example bare_string_to_subset_is_split :
  posted (snd (_get_json_subset Sample.echo (Bare "AB") 2015 2020 None (Sample.world None)))
  = [mkFormData "A,B" 2015 2020 None].
Proof. reflexivity. Qed.

Example quarter_Q03_is_third_quarter :
  parse_series Sample.to_datetime
    (mkSeriesResult "S" [mkObservation "2020" "Q03" "5"])
  = Ok [(mkPeriod FreqQ 2020 3, "5")].
Proof. reflexivity. Qed.

Lemma get_json_series_pagination_witness :
  current_key (Some "k") (Sample.world None) = Some "k" /\
  resolved_years (Some 1960) None (Some "k") (Sample.world None) = (1960, 2024) /\
  2024 - 1960 >= 20 /\
  tiles 1960 2024 (spec_windows 1960 2024) /\
  exists merged,
    fst (get_json_series Sample.echo (Bare "LNS14000000") (Some 1960) None (Some "k")
           (Sample.world None)) = Ok merged.
Proof.
  assert (H1 : current_key (Some "k") (Sample.world None) = Some "k") by reflexivity.
  assert (H2 : resolved_years (Some 1960) None (Some "k") (Sample.world None)
               = (1960, 2024)) by reflexivity.
  assert (H3 : 2024 - 1960 >= 20) by lia.
  destruct (get_json_series_pagination Sample.echo (Bare "LNS14000000") (Some 1960) None
              (Some "k") (Sample.world None) "k" 1960 2024 H1 H2 H3)
    as (_ & _ & Htiles & _ & _ & Hreturns).
  split; [exact H1 | split; [exact H2 | split; [exact H3 | split; [exact Htiles |]]]].
  apply Hreturns. intros h c. eexists. split; reflexivity.
Defined.

Lemma unkeyed_long_span_raises_witness :
  current_key None (Sample.world None) = None /\
  resolved_years (Some 2000) (Some 2015) None (Sample.world None) = (2000, 2015) /\
  2015 - 2000 >= 10 /\
  get_json_series Sample.echo (Seq ["LNS14000000"]) (Some 2000) (Some 2015) None
    (Sample.world None)
  = (Raise (ValueError MustUseKey), Sample.world None).
Proof.
  assert (H1 : current_key None (Sample.world None) = None) by reflexivity.
  assert (H2 : resolved_years (Some 2000) (Some 2015) None (Sample.world None)
               = (2000, 2015)) by reflexivity.
  assert (H3 : 2015 - 2000 >= 10) by lia.
  split; [exact H1 | split; [exact H2 | split; [exact H3 |]]].
  apply (unkeyed_long_span_raises Sample.echo (Seq ["LNS14000000"]) (Some 2000)
           (Some 2015) None (Sample.world None) 2000 2015 H1 H2 H3).
Defined.

Lemma get_json_subset_validates_witness :
  let response := mkEnvelope "REQUEST_NOT_PROCESSED" ["daily threshold reached"] [] in
  let call := _get_json_subset Sample.refusing (Seq ["LNS14000000"]) 2015 2020 None
                (Sample.world None) in
  Sample.refusing (posted (Sample.world None))
    (form_of (Seq ["LNS14000000"]) None (2015, 2020)) = Some response /\
  log_warning (snd call) = ["daily threshold reached"] /\
  fst call = Raise (RuntimeError (GotStatus "REQUEST_NOT_PROCESSED")).
Proof.
  intros response call.
  assert (H : Sample.refusing (posted (Sample.world None))
                (form_of (Seq ["LNS14000000"]) None (2015, 2020)) = Some response)
    by reflexivity.
  destruct (get_json_subset_validates Sample.refusing (Seq ["LNS14000000"]) 2015 2020
              None (Sample.world None) response H) as (Hlog & Hraise & _ & _).
  split; [exact H | split; [exact Hlog |]].
  apply Hraise. simpl. discriminate.
Defined.

Lemma unknown_period_decided_by_first_character_witness :
  let first := mkObservation "2020" "S01" "1" in
  let series := mkSeriesResult "S" [first; mkObservation "2019" "M01" "2"] in
  data series = first :: [mkObservation "2019" "M01" "2"] /\
  exists p, parse_series Sample.to_datetime series = Raise (ValueError (UnknownPeriod p)).
Proof.
  intros first series.
  assert (H : data series = first :: [mkObservation "2019" "M01" "2"]) by reflexivity.
  split; [exact H |].
  apply (unknown_period_decided_by_first_character Sample.to_datetime series first
           [mkObservation "2019" "M01" "2"] H).
  exists "S"%char, "01". repeat split; discriminate.
Defined.



Lemma get_series_bare_string_witness :
  let res := mkSeriesResult "LNS14000000"
               [mkObservation "2020" "M02" "2"; mkObservation "2020" "M01" "1"] in
  let w1 := mkWorld None 2024 [mkFormData "LNS14000000" 2015 2020 None] ["notice"] [] in
  let parsed := [(mkPeriod FreqM 2020 2, "2"); (mkPeriod FreqM 2020 1, "1")] in
  get_json_series Sample.echo (Bare "LNS14000000") (Some 2015) (Some 2020) None
    (Sample.world None) = (Ok [res], w1) /\
  data res <> [] /\
  parse_series Sample.to_datetime res = Ok parsed /\
  Forall (fun pv => Sample.float (snd pv) <> None) parsed /\
  exists col,
    get_series Sample.echo Sample.to_datetime Sample.float Sample.nan
      (Bare "LNS14000000") (Some 2015) (Some 2020) None "raise" (Sample.world None)
    = (Ok (ReturnedSeries "LNS14000000" col), w1) /\
    ascending col.
Proof.
  intros res w1 parsed.
  assert (H1 : get_json_series Sample.echo (Bare "LNS14000000") (Some 2015) (Some 2020)
                 None (Sample.world None) = (Ok [res], w1)) by reflexivity.
  assert (H2 : data res <> []) by discriminate.
  assert (H3 : parse_series Sample.to_datetime res = Ok parsed) by reflexivity.
  assert (H4 : Forall (fun pv => Sample.float (snd pv) <> None) parsed)
    by (repeat constructor; discriminate).
  destruct (get_series_bare_string Sample.echo Sample.to_datetime Sample.Float
              Sample.float Sample.nan "LNS14000000" (Some 2015) (Some 2020) None "raise" (Sample.world None))
    as [_ Hsingle].
  destruct (Hsingle res w1 parsed H1 H2 H3 H4) as (col & casted & Hret & _ & _ & Hasc).
  split; [exact H1 | split; [exact H2 | split; [exact H3 | split; [exact H4 |]]]].
  exists col. split; [exact Hret | exact Hasc].
Defined.

(** * Further properties *)

(** ** How [get_json_series] ends *)

Section Outcomes.

Variable remote : list FormData -> FormData -> option Envelope.

Lemma get_json_subset_outcome series a b key w :
  let c := form_of series key (a, b) in
  let r := fst (_get_json_subset remote series a b key w) in
  (forall ex, r = Raise ex ->
     failed (remote (posted w) c) /\ ex = raised_by (remote (posted w) c)) /\
  (forall results, r = Ok results -> ~ failed (remote (posted w) c)).
Proof.
  unfold _get_json_subset, form_of, failed, raised_by. simpl.
  destruct (remote _ _) as [response |]; simpl.
  - destruct (String.eqb_spec (status response) "REQUEST_SUCCEEDED") as [Hs | Hs]; simpl.
    + split; [discriminate | intros _ _; auto].
    + split; [intros ex H; inversion H; auto | discriminate].
  - split; [intros ex H; inversion H; auto | discriminate].
Qed.

Lemma all_succeeded_app h pre cs :
  all_succeeded remote h (pre ++ cs)
  <-> all_succeeded remote h pre /\ all_succeeded remote (h ++ pre) cs.
Proof.
  revert h. induction pre as [| c pre IH]; simpl; intros h.
  - rewrite app_nil_r. tauto.
  - rewrite IH, <- app_assoc. simpl. tauto.
Qed.

(** The loop goes on exactly as long as the answers are successes. *)
Lemma pagination_outcome series key e b :
  forall a compiled w r w',
    pagination remote series key e compiled a b w = (r, w') ->
    (forall c, r = Ok c ->
       exists issued, posted w' = posted w ++ issued /\
                      all_succeeded remote (posted w) issued) /\
    (forall ex, r = Raise ex ->
       exists pre c,
         posted w' = posted w ++ pre ++ [c] /\
         all_succeeded remote (posted w) pre /\
         failed (remote (posted w ++ pre) c) /\
         ex = raised_by (remote (posted w ++ pre) c)).
Proof.
  induction b as [b IH] using (@loop_induction e). intros a compiled w r w'.
  rewrite pagination_step.
  pose proof (get_json_subset_posted remote series a b key w) as Hp.
  pose proof (get_json_subset_outcome series a b key w) as [Hfail Hgood].
  destruct (_get_json_subset remote series a b key w) as [[results | ex0] w1];
    simpl in Hp, Hfail, Hgood.
  - specialize (Hgood results eq_refl).
    destruct (Z_gt_dec (b + 1) e) as [Hgt | Hle].
    + intros H. inversion H; subst r w'. split; [| discriminate].
      intros c _. exists [form_of series key (a, b)]. simpl. auto.
    + intros H. destruct (Z.le_gt_cases b e) as [Hbe | Hbe]; [| lia].
      destruct (IH (Z.min (b + 20) e) ltac:(lia) _ _ _ _ _ H) as [Hok Herr].
      rewrite Hp in Hok, Herr. split.
      * intros c Hc. destruct (Hok c Hc) as (issued & Hpost & Hall).
        exists (form_of series key (a, b) :: issued).
        split; [rewrite Hpost, <- app_assoc; reflexivity | simpl; auto].
      * intros ex Hex. destruct (Herr ex Hex) as (pre & c & Hpost & Hall & Hf & Hraised).
        exists (form_of series key (a, b) :: pre), c.
        rewrite <- app_assoc in Hpost, Hf, Hraised. simpl in Hpost, Hf, Hraised.
        split; [exact Hpost | split; [simpl; auto | split; assumption]].
  - intros H. inversion H; subst r w'. split; [discriminate |].
    intros ex Hex. inversion Hex; subst ex0.
    destruct (Hfail ex eq_refl) as [Hf Hraised].
    exists [], (form_of series key (a, b)). simpl. rewrite app_nil_r. auto.
Qed.


End Outcomes.

(** ** How many requests, and for which years *)

Lemma spec_windows_from_length e b :
  forall a, b <= e ->
  Z.of_nat (List.length (spec_windows_from e a b)) = 1 + (e - b + 19) / 20.
Proof.
  induction b as [b IH] using (@loop_induction e). intros a Hbe.
  rewrite spec_windows_from_step. destruct (Z_gt_dec (b + 1) e) as [Hgt | Hle].
  - simpl. replace (e - b + 19) with 19 by lia. reflexivity.
  - cbn [List.length]. rewrite Nat2Z.inj_succ, (IH (Z.min (b + 20) e)) by lia.
    destruct (Z.le_gt_cases (b + 20) e) as [Hfar | Hnear].
    + rewrite Z.min_l by lia.
      replace (e - b + 19) with (e - (b + 20) + 19 + 1 * 20) by lia.
      rewrite Z.div_add by lia. lia.
    + rewrite Z.min_r by lia. replace (e - e + 19) with 19 by lia.
      assert (H : (e - b + 19) / 20 = 1)
        by (symmetry; apply (Z.div_unique _ _ _ (e - b - 1)); lia).
      rewrite H. reflexivity.
Qed.

Lemma resolve_endyear_not_future sy ey k thisyear :
  resolve_endyear sy ey k thisyear <= thisyear.
Proof.
  unfold resolve_endyear.
  assert (Hclamp : match sy, k with
                   | None, _ => thisyear
                   | Some _, Some _ => thisyear
                   | Some s, None => Z.min (s + 9) thisyear
                   end <= thisyear) by (destruct sy, k; lia).
  destruct ey as [y |]; [| exact Hclamp].
  destruct (Z.gtb_spec y thisyear); [exact Hclamp | lia].
Qed.

Section Requests.

Variable remote : list FormData -> FormData -> option Envelope.

(** Below 20 years of span, and unless the key is missing for a span of
    10 or more, [get_json_series] is one call of [_get_json_subset]. *)
Lemma get_json_series_single series sy ey key w :
  let k := current_key key w in
  let s := fst (resolved_years sy ey key w) in
  let e := snd (resolved_years sy ey key w) in
  e - s <= 19 ->
  (k = None -> e - s <= 9) ->
  get_json_series remote series sy ey key w
  = _get_json_subset remote (as_sequence series) s e k w.
Proof.
  intros k s e Hspan Hkey. rewrite get_json_series_eq. cbv zeta. fold k s e.
  replace (match k with None => e - s >=? 10 | Some _ => false end) with false.
  - replace (e - s >=? 20) with false; [rewrite andb_false_r; reflexivity |].
    destruct (Z.geb_spec (e - s) 20); [lia | reflexivity].
  - destruct k; [reflexivity |]. specialize (Hkey eq_refl).
    destruct (Z.geb_spec (e - s) 10); [lia | reflexivity].
Qed.

(** X2. With a key and a resolved span of 20 years or more, a call that
    returns has posted exactly [1 + (end_year - start_year + 1) / 20]
    requests (integer division), and a call that raises has posted at most
    that many. *)
Theorem get_json_series_request_count series sy ey key w k s e r w' :
  current_key key w = Some k ->
  resolved_years sy ey key w = (s, e) ->
  e - s >= 20 ->
  get_json_series remote series sy ey key w = (r, w') ->
  exists issued,
    posted w' = posted w ++ issued /\
    Z.of_nat (List.length issued) <= 1 + (e - s + 1) / 20 /\
    (forall results, r = Ok results ->
       Z.of_nat (List.length issued) = 1 + (e - s + 1) / 20).
Proof.
  intros Hk Hy Hspan. rewrite get_json_series_eq, Hk, Hy. simpl fst. simpl snd. cbv zeta.
  assert (Hs : s <> 0) by (intros ->; apply resolved_years_zero in Hy; lia).
  replace (negb (s =? 0) && (e - s >=? 20)) with true.
  2: { destruct (Z.eqb_spec s 0); [contradiction |].
       destruct (Z.geb_spec (e - s) 20); [reflexivity | lia]. }
  assert (Hcount : Z.of_nat (List.length (map (form_of (as_sequence series) (Some k))
                                            (spec_windows_from e s (s + 18))))
                   = 1 + (e - s + 1) / 20).
  { rewrite length_map, spec_windows_from_length by lia. do 2 f_equal. lia. }
  remember ((e - s + 1) / 20) as n eqn:Hn. clear Hn.
  destruct (pagination remote (as_sequence series) (Some k) e [] s (s + 18) w)
    as [[c | ex] w1] eqn:Hloop; intros H; inversion H; subst r w';
    destruct (pagination_trace _ _ _ _ _ _ _ _ _ _ Hloop)
      as (issued & rest & Hplan & _ & Hpost & Hok);
    rewrite Hplan, length_app, Nat2Z.inj_add in Hcount;
    exists issued; (split; [exact Hpost | split; [pose proof (Nat2Z.is_nonneg (List.length rest)); lia |]]).
  - intros results _. destruct (Hok c eq_refl) as [-> _].
    change (Z.of_nat (List.length (@nil FormData))) with 0 in Hcount. lia.
  - discriminate.
Qed.

(** X3. Every request [get_json_series] posts lies inside the resolved
    range and stops at the current year at the latest: its first year is
    not before the resolved start year, its last year is not after the
    resolved end year, which is itself not after the current year. *)
Theorem requests_inside_resolved_range series sy ey key w :
  let s := fst (resolved_years sy ey key w) in
  let e := snd (resolved_years sy ey key w) in
  e <= today_year w /\
  exists issued,
    posted (snd (get_json_series remote series sy ey key w)) = posted w ++ issued /\
    Forall (fun c => s <= startyear c /\ endyear c <= e) issued.
Proof.
  intros s e. split; [apply resolve_endyear_not_future |].
  rewrite get_json_series_eq. cbv zeta. fold s e.
  destruct (match current_key key w with None => e - s >=? 10 | Some _ => false end).
  { exists []. simpl. rewrite app_nil_r. split; [reflexivity | constructor]. }
  destruct (Z.eqb_spec s 0) as [H0 | H0]; simpl.
  - exists [form_of (as_sequence series) (current_key key w) (s, e)].
    split; [apply get_json_subset_posted |]. constructor; [simpl; lia | constructor].
  - destruct (Z.geb_spec (e - s) 20) as [Hge | Hlt].
    + destruct (pagination remote (as_sequence series) (current_key key w) e [] s
                  (s + 18) w) as [r w1] eqn:Hloop.
      destruct (pagination_trace _ _ _ _ _ _ _ _ _ _ Hloop)
        as (issued & rest & Hplan & _ & Hpost & _).
      exists issued. split; [destruct r; exact Hpost |].
      assert (Hall : Forall (fun c => s <= startyear c /\ endyear c <= e)
                       (issued ++ rest)).
      { rewrite <- Hplan. apply Forall_map.
        destruct (tiles_within s e (spec_windows_from e s (s + 18)))
          as [_ Hin]; [apply spec_windows_from_tiles; lia |].
        exact Hin. }
      apply Forall_app in Hall. apply Hall.
    + exists [form_of (as_sequence series) (current_key key w) (s, e)].
      split; [apply get_json_subset_posted |]. constructor; [simpl; lia | constructor].
Qed.

(** X4. Without a key, leaving out the end year (or giving one in the
    future) never runs into the key error: whatever the start year,
    exactly one request is posted, without a registration key, for at most
    ten calendar years ending no later than the current year. *)
Theorem unkeyed_open_end_is_one_request series sy ey key w :
  current_key key w = None ->
  (ey = None \/ exists y, ey = Some y /\ y > today_year w) ->
  exists c,
    posted (snd (get_json_series remote series sy ey key w)) = posted w ++ [c] /\
    registrationkey c = None /\
    endyear c - startyear c <= 9 /\
    endyear c <= today_year w /\
    fst (get_json_series remote series sy ey key w) <> Raise (ValueError MustUseKey).
Proof.
  intros Hk Hey.
  assert (Hspan : snd (resolved_years sy ey key w) - fst (resolved_years sy ey key w) <= 9).
  { unfold resolved_years, resolve_startyear, resolve_endyear. rewrite Hk. simpl.
    destruct Hey as [-> | (y & -> & Hy)].
    - destruct sy as [s0 |]; [destruct (Z.eqb_spec s0 0) |]; lia.
    - destruct (Z.gtb_spec y (today_year w)); [| lia].
      destruct sy as [s0 |]; [destruct (Z.eqb_spec s0 0) |]; lia. }
  rewrite get_json_series_single by (intros; lia). rewrite Hk.
  eexists. split; [apply get_json_subset_posted |].
  split; [reflexivity | split; [exact Hspan | split]].
  - simpl. pose proof (resolve_endyear_not_future sy ey (current_key key w) (today_year w)).
    unfold resolved_years. simpl. rewrite Hk in *. assumption.
  - unfold _get_json_subset. destruct (remote _ _) as [response |]; [| discriminate].
    simpl. destruct (negb _); discriminate.
Qed.

(** X5. A start year after the current year is not rejected: whatever the
    other arguments, one request is posted whose first year is that start
    year and whose last year lies before it. *)
Theorem future_start_posts_inverted_range series s0 ey key w :
  0 <= today_year w ->
  s0 > today_year w ->
  exists c,
    posted (snd (get_json_series remote series (Some s0) ey key w)) = posted w ++ [c] /\
    startyear c = s0 /\
    endyear c < startyear c.
Proof.
  intros Hnow Hs0.
  assert (Hs : fst (resolved_years (Some s0) ey key w) = s0).
  { unfold resolved_years, resolve_startyear. simpl.
    destruct (Z.eqb_spec s0 0); [lia | reflexivity]. }
  pose proof (resolve_endyear_not_future (Some s0) ey (current_key key w) (today_year w))
    as He.
  change (resolve_endyear (Some s0) ey (current_key key w) (today_year w))
    with (snd (resolved_years (Some s0) ey key w)) in He.
  rewrite get_json_series_single by (intros; lia).
  eexists. split; [apply get_json_subset_posted |].
  unfold form_of. cbn [startyear endyear fst snd]. rewrite Hs. split; [reflexivity | lia].
Qed.

End Requests.

(** ** What the merge keeps *)

Lemma extend_all_data c r :
  Permutation (flat_map snd (extend c r)) (flat_map snd c ++ data r).
Proof.
  induction c as [| [i j] c IH]; simpl.
  - rewrite app_nil_r. reflexivity.
  - destruct (i =? seriesID r)%string; simpl.
    + rewrite <- !app_assoc. apply Permutation_app_head. apply Permutation_app_comm.
    + rewrite <- app_assoc. apply Permutation_app_head. exact IH.
Qed.

Lemma fold_extend_all_data rs :
  forall c, Permutation (flat_map snd (fold_left extend rs c))
                        (flat_map snd c ++ flat_map data rs).
Proof.
  induction rs as [| r rs IH]; simpl; intros c.
  - rewrite app_nil_r. reflexivity.
  - rewrite IH, extend_all_data, <- app_assoc. reflexivity.
Qed.

Lemma first_seen_snoc ids x :
  first_seen (ids ++ [x])
  = if in_dec string_dec x ids then first_seen ids else first_seen ids ++ [x].
Proof.
  unfold first_seen. rewrite rev_app_distr. simpl.
  destruct (in_dec string_dec x (rev ids)) as [Hin | Hnot];
    destruct (in_dec string_dec x ids) as [Hin' | Hnot']; try reflexivity.
  - exfalso. apply Hnot'. apply in_rev. exact Hin.
  - exfalso. apply Hnot. apply in_rev in Hin'. exact Hin'.
Qed.

Lemma first_seen_In ids x : In x (first_seen ids) <-> In x ids.
Proof.
  unfold first_seen. rewrite <- in_rev, nodup_In, <- in_rev. reflexivity.
Qed.

Lemma extend_key_order c r :
  map fst (extend c r)
  = if in_dec string_dec (seriesID r) (map fst c) then map fst c
    else map fst c ++ [seriesID r].
Proof.
  induction c as [| [i j] c IH]; simpl; [reflexivity |].
  destruct (String.eqb_spec i (seriesID r)) as [Heq | Hne]; simpl.
  - destruct (string_dec i (seriesID r)); [reflexivity | contradiction].
  - rewrite IH. destruct (string_dec i (seriesID r)); [contradiction |].
    destruct (in_dec string_dec (seriesID r) (map fst c)); reflexivity.
Qed.

Lemma fold_extend_key_order rs :
  forall c done,
    map fst c = first_seen (map seriesID done) ->
    map fst (fold_left extend rs c) = first_seen (map seriesID (done ++ rs)).
Proof.
  induction rs as [| r rs IH]; simpl; intros c done Hc.
  - rewrite app_nil_r. exact Hc.
  - replace (done ++ r :: rs) with ((done ++ [r]) ++ rs)
      by (rewrite <- app_assoc; reflexivity).
    apply IH. rewrite extend_key_order, map_app. cbn [map].
    rewrite first_seen_snoc, Hc.
    destruct (in_dec string_dec (seriesID r) (first_seen (map seriesID done))) as [H | H];
      destruct (in_dec string_dec (seriesID r) (map seriesID done)) as [H' | H'];
      try reflexivity; exfalso.
    + apply H'. apply first_seen_In. exact H.
    + apply H. apply first_seen_In. exact H'.
Qed.

Section Merge.

Variable remote : list FormData -> FormData -> option Envelope.

(** X6. With a key and a resolved span of 20 years or more, what
    [get_json_series] returns lists the series in the order in which their
    ids first occur in the answers, and holds every observation of the
    answers exactly once: nothing is lost or repeated by the merge. *)
Theorem merge_keeps_order_and_observations series sy ey key w k s e merged w' :
  current_key key w = Some k ->
  resolved_years sy ey key w = (s, e) ->
  e - s >= 20 ->
  get_json_series remote series sy ey key w = (Ok merged, w') ->
  let calls := map (form_of (as_sequence series) (Some k)) (spec_windows s e) in
  let answered := List.concat (replay remote (posted w) calls) in
  map seriesID merged = first_seen (map seriesID answered) /\
  Permutation (flat_map data merged) (flat_map data answered).
Proof.
  intros Hk Hy Hspan Hget calls answered.
  rewrite get_json_series_eq, Hk, Hy in Hget. simpl fst in Hget. simpl snd in Hget.
  cbv zeta in Hget.
  assert (Hs : s <> 0) by (intros ->; apply resolved_years_zero in Hy; lia).
  replace (negb (s =? 0) && (e - s >=? 20)) with true in Hget.
  2: { destruct (Z.eqb_spec s 0); [contradiction |].
       destruct (Z.geb_spec (e - s) 20); [reflexivity | lia]. }
  destruct (pagination remote (as_sequence series) (Some k) e [] s (s + 18) w)
    as [[c | ex] w1] eqn:Hloop; [| discriminate].
  inversion Hget; subst merged w'.
  destruct (pagination_trace _ _ _ _ _ _ _ _ _ _ Hloop)
    as (issued & rest & Hplan & _ & _ & Hok).
  destruct (Hok c eq_refl) as [-> Hc]. rewrite app_nil_r in Hplan.
  fold (spec_windows s e) in Hplan. fold calls in Hplan. rewrite <- Hplan in Hc.
  fold answered in Hc. split.
  - rewrite map_series_keys, Hc.
    apply (fold_extend_key_order answered [] []). reflexivity.
  - assert (Hdata : flat_map data (map (fun '(i, j) => mkSeriesResult i j) c)
                    = flat_map snd c).
    { clear. induction c as [| [i j] c IH]; simpl; [reflexivity | rewrite IH; reflexivity]. }
    rewrite Hdata, Hc. apply (fold_extend_all_data answered []).
Qed.

End Merge.

(** ** The credential holder *)

Section Credentials.

Variable remote : list FormData -> FormData -> option Envelope.

Lemma get_json_subset_frame series a b key w :
  let w' := snd (_get_json_subset remote series a b key w) in
  KEY_key w' = KEY_key w /\ today_year w' = today_year w /\
  warnings_warn w' = warnings_warn w /\
  exists logged, log_warning w' = log_warning w ++ logged.
Proof.
  unfold _get_json_subset. simpl.
  destruct (remote _ _) as [response |]; simpl.
  - destruct (negb _); simpl; repeat split; eauto.
  - repeat split. exists []. rewrite app_nil_r. reflexivity.
Qed.

Lemma pagination_frame series key e b :
  forall a compiled w,
    let w' := snd (pagination remote series key e compiled a b w) in
    KEY_key w' = KEY_key w /\ today_year w' = today_year w /\
    warnings_warn w' = warnings_warn w /\
    exists logged, log_warning w' = log_warning w ++ logged.
Proof.
  induction b as [b IH] using (@loop_induction e). intros a compiled w.
  rewrite pagination_step.
  pose proof (get_json_subset_frame series a b key w) as Hstep.
  destruct (_get_json_subset remote series a b key w) as [[results | ex] w1];
    simpl in Hstep; [| exact Hstep].
  destruct (Z_gt_dec (b + 1) e) as [Hgt | Hle]; [exact Hstep |].
  destruct (Z.le_gt_cases b e) as [Hbe | Hbe]; [| lia].
  destruct Hstep as (Hk & Ht & Hw & logged & Hl).
  destruct (IH (Z.min (b + 20) e) ltac:(lia) (b + 1) (fold_left extend results compiled) w1)
    as (Hk' & Ht' & Hw' & logged' & Hl').
  cbv zeta. rewrite Hk', Ht', Hw', Hl', Hk, Ht, Hw, Hl.
  repeat split. exists (logged ++ logged'). rewrite app_assoc. reflexivity.
Qed.

(** [get_json_series] leaves the holder, the clock and the warnings of
    [warnings.warn] alone, and only adds to the log. *)
Lemma get_json_series_frame series sy ey key w :
  let w' := snd (get_json_series remote series sy ey key w) in
  KEY_key w' = KEY_key w /\ today_year w' = today_year w /\
  warnings_warn w' = warnings_warn w /\
  exists logged, log_warning w' = log_warning w ++ logged.
Proof.
  rewrite get_json_series_eq. cbv zeta.
  destruct (match current_key key w with None => _ | Some _ => false end).
  { simpl. repeat split. exists []. rewrite app_nil_r. reflexivity. }
  destruct (negb _ && _); [| apply get_json_subset_frame].
  pose proof (pagination_frame (as_sequence series) (current_key key w)
                (snd (resolved_years sy ey key w))
                (fst (resolved_years sy ey key w) + 18)
                (fst (resolved_years sy ey key w)) [] w) as H.
  destruct (pagination _ _ _ _ _ _ _ _) as [[c | ex] w1]; exact H.
Qed.

Lemma keyed_call_never_key_error series sy ey key w k :
  current_key key w = Some k ->
  fst (get_json_series remote series sy ey key w) <> Raise (ValueError MustUseKey).
Proof.
  intros Hk. rewrite get_json_series_eq, Hk. cbv zeta.
  destruct (negb _ && _).
  - destruct (pagination remote (as_sequence series) (Some k)
                (snd (resolved_years sy ey key w)) []
                (fst (resolved_years sy ey key w))
                (fst (resolved_years sy ey key w) + 18) w) as [[c | ex] w1] eqn:Hloop;
      simpl; [discriminate |].
    destruct (pagination_outcome remote _ _ _ _ _ _ _ _ _ Hloop) as [_ Herr].
    destruct (Herr ex eq_refl) as (pre & c & _ & _ & _ & ->).
    destruct (remote _ c); discriminate.
  - pose proof (get_json_subset_outcome remote (as_sequence series)
                  (fst (resolved_years sy ey key w)) (snd (resolved_years sy ey key w))
                  (Some k) w) as [Hfail _].
    cbv zeta in Hfail. intros Hraise. destruct (Hfail _ Hraise) as [_ Hex].
    destruct (remote _ _); discriminate.
Qed.

Lemma set_api_key_then {A} k (m : Py A) w :
  (set_api_key k ;;; m) w
  = m (mkWorld (Some k) (today_year w) (posted w) (log_warning w) (warnings_warn w)).
Proof. reflexivity. Qed.

Lemma unset_api_key_then {A} (m : Py A) w :
  (unset_api_key ;;; m) w
  = m (mkWorld None (today_year w) (posted w) (log_warning w) (warnings_warn w)).
Proof. reflexivity. Qed.

(** X7. After [set_api_key(k)], a call of [get_json_series] without a key
    argument sends [k] as registration key with every request and never
    raises the key error, and [k] stays in the holder; a key given as
    argument still goes first. *)
Theorem set_api_key_then_call k series sy ey w :
  let run := (set_api_key k ;;; get_json_series remote series sy ey None) w in
  KEY_key (snd run) = Some k /\
  fst run <> Raise (ValueError MustUseKey) /\
  (exists issued,
     posted (snd run) = posted w ++ issued /\
     Forall (fun c => registrationkey c = Some k) issued) /\
  (forall k',
     exists issued,
       posted (snd ((set_api_key k ;;; get_json_series remote series sy ey (Some k')) w))
       = posted w ++ issued /\
       Forall (fun c => registrationkey c = Some k') issued).
Proof.
  intros run. unfold run. rewrite set_api_key_then.
  set (w1 := mkWorld (Some k) (today_year w) (posted w) (log_warning w) (warnings_warn w)).
  split; [| split; [| split]].
  - destruct (get_json_series_frame series sy ey None w1) as (Hkey & _). exact Hkey.
  - apply (keyed_call_never_key_error series sy ey None w1 k). reflexivity.
  - destruct (get_json_series_issued remote series sy ey None w1) as (issued & Hpost & Hall).
    exists issued. split; [exact Hpost |].
    eapply Forall_impl; [| exact Hall]. simpl. tauto.
  - intros k'. rewrite set_api_key_then. fold w1.
    destruct (get_json_series_issued remote series sy ey (Some k') w1)
      as (issued & Hpost & Hall).
    exists issued. split; [exact Hpost |].
    eapply Forall_impl; [| exact Hall]. simpl. tauto.
Qed.

(** X8. After [unset_api_key()], whatever the holder held before (the
    key of the environment at import, or one set later), a call without a
    key argument is an unkeyed call: its requests carry no registration
    key and span at most 9 years, and a resolved span of 10 years or more
    raises the key error with nothing posted. *)
Theorem unset_api_key_then_call series sy ey w :
  let run := (unset_api_key ;;; get_json_series remote series sy ey None) w in
  KEY_key (snd run) = None /\
  (exists issued,
     posted (snd run) = posted w ++ issued /\
     Forall (fun c => registrationkey c = None /\ endyear c - startyear c <= 9) issued) /\
  (let e := resolve_endyear sy ey None (today_year w) in
   e - resolve_startyear sy e None >= 10 ->
   fst run = Raise (ValueError MustUseKey) /\ posted (snd run) = posted w).
Proof.
  intros run. unfold run. rewrite unset_api_key_then.
  set (w1 := mkWorld None (today_year w) (posted w) (log_warning w) (warnings_warn w)).
  split; [| split].
  - destruct (get_json_series_frame series sy ey None w1) as (Hkey & _). exact Hkey.
  - destruct (get_json_series_issued remote series sy ey None w1) as (issued & Hpost & Hall).
    exists issued. split; [exact Hpost |].
    eapply Forall_impl; [| exact Hall]. simpl. tauto.
  - intros Hspan. rewrite get_json_series_eq. unfold resolved_years. simpl.
    destruct (Z.geb_spec
                (resolve_endyear sy ey None (today_year w)
                 - resolve_startyear sy (resolve_endyear sy ey None (today_year w)) None)
                10); [split; reflexivity | lia].
Qed.

End Credentials.

(** ** More on [parse_series] *)

Lemma replace_absent c old new s :
  lacks c s -> replace_from 0 (String c old) new s = s.
Proof.
  induction s as [| c' s IH]; simpl; intros H; [reflexivity |].
  destruct H as [Hne Hs]. destruct (ascii_dec c c') as [Heq | _]; [congruence |].
  rewrite IH by exact Hs. reflexivity.
Qed.

Section ParseOutcomes.

Variable to_datetime : list string -> option (list Timestamp).

Lemma parse_series_dated series first rest c tail :
  data series = first :: rest ->
  period first = String c tail ->
  c = "A"%char \/ c = "Q"%char \/ c = "M"%char ->
  parse_series to_datetime series =
  match to_datetime (date_labels c (data series)) with
  | Some dates =>
      Ok (value_by_period (freq_of c)
            (if (c =? "M")%char
             then filter (fun r => not_M13 (snd r)) (combine dates (data series))
             else combine dates (data series)))
  | None => Raise (ValueError DateParse)
  end.
Proof.
  intros Hdata Hfirst Hc. unfold parse_series.
  destruct (data series) as [| o l]; [discriminate |].
  injection Hdata as -> ->. rewrite Hfirst.
  destruct Hc as [-> | [-> | ->]]; reflexivity.
Qed.

Ltac parse_outcome :=
  repeat match goal with
         | H : exists _, _ |- _ => destruct H
         | H : _ /\ _ |- _ => destruct H
         | H : ?a = _ :: _, H' : ?a = _ :: _ |- _ =>
             rewrite H in H'; inversion H'; clear H'; subst
         | H : ?a = String _ _, H' : ?a = String _ _ |- _ =>
             rewrite H in H'; inversion H'; clear H'; subst
         | H : Raise (ValueError (NoDataSeries _)) = Raise _ |- _ =>
             inversion H; clear H; subst
         end;
  try discriminate; try congruence; try tauto; eauto 10.

(** X9. [parse_series] returns exactly when the series has data, the first
    period code starts with "A", "Q" or "M", and pandas accepts the labels
    built for that family.  It raises the no-data [ValueError], naming the
    series, exactly on empty data; an [IndexError] exactly when the first
    period code is the empty string; and the date-parsing [ValueError]
    exactly when the family is known and pandas rejects the labels. *)
Theorem parse_series_outcomes series :
  ((exists out, parse_series to_datetime series = Ok out)
   <-> exists first rest c tail,
         data series = first :: rest /\ period first = String c tail /\
         (c = "A"%char \/ c = "Q"%char \/ c = "M"%char) /\
         to_datetime (date_labels c (data series)) <> None) /\
  (forall id, parse_series to_datetime series = Raise (ValueError (NoDataSeries id))
              <-> data series = [] /\ id = seriesID series) /\
  (parse_series to_datetime series = Raise IndexError
   <-> exists first rest, data series = first :: rest /\ period first = "") /\
  (parse_series to_datetime series = Raise (ValueError DateParse)
   <-> exists first rest c tail,
         data series = first :: rest /\ period first = String c tail /\
         (c = "A"%char \/ c = "Q"%char \/ c = "M"%char) /\
         to_datetime (date_labels c (data series)) = None).
Proof.
  assert (Hcase :
    (data series = [] /\
     parse_series to_datetime series = Raise (ValueError (NoDataSeries (seriesID series))))
    \/ (exists first rest, data series = first :: rest /\ period first = "" /\
         parse_series to_datetime series = Raise IndexError)
    \/ (exists first rest c tail,
         data series = first :: rest /\ period first = String c tail /\
         c <> "A"%char /\ c <> "Q"%char /\ c <> "M"%char /\
         parse_series to_datetime series
         = Raise (ValueError (UnknownPeriod (period first))))
    \/ (exists first rest c tail,
         data series = first :: rest /\ period first = String c tail /\
         (c = "A"%char \/ c = "Q"%char \/ c = "M"%char) /\
         parse_series to_datetime series =
         match to_datetime (date_labels c (data series)) with
         | Some dates =>
             Ok (value_by_period (freq_of c)
                   (if (c =? "M")%char
                    then filter (fun r => not_M13 (snd r)) (combine dates (data series))
                    else combine dates (data series)))
         | None => Raise (ValueError DateParse)
         end)).
  { destruct (data series) as [| first rest] eqn:Hdata.
    { left. unfold parse_series. rewrite Hdata. auto. }
    destruct (period first) as [| c tail] eqn:Hfirst.
    { right. left. exists first, rest. unfold parse_series. rewrite Hdata, Hfirst. auto. }
    destruct (ascii_dec c "A") as [HA | HA];
      [| destruct (ascii_dec c "Q") as [HQ | HQ];
         [| destruct (ascii_dec c "M") as [HM | HM]]].
    4: { right. right. left. exists first, rest, c, tail.
         repeat (split; [assumption || reflexivity |]).
         unfold parse_series. rewrite Hdata, Hfirst.
         destruct (Ascii.eqb_spec c "A"); [contradiction |].
         destruct (Ascii.eqb_spec c "Q"); [contradiction |].
         destruct (Ascii.eqb_spec c "M"); [contradiction | reflexivity]. }
    all: right; right; right; exists first, rest, c, tail;
      (split; [reflexivity | split; [assumption | split; [tauto |]]]);
      rewrite <- Hdata; apply (parse_series_dated series first rest c tail Hdata Hfirst);
      tauto. }
  destruct Hcase as [[Hd Hp] | [(first & rest & Hd & Hf & Hp)
    | [(first & rest & c & tail & Hd & Hf & HA & HQ & HM & Hp)
      | (first & rest & c & tail & Hd & Hf & Hc & Hp)]]]; rewrite Hp.
  - split; [| split; [| split]]; try intros id; (split; [intros H | intros H]); parse_outcome.
  - split; [| split; [| split]]; try intros id; (split; [intros H | intros H]); parse_outcome.
  - split; [| split; [| split]]; try intros id; (split; [intros H | intros H]); parse_outcome.
  - destruct (to_datetime (date_labels c (data series))) as [dates |] eqn:Hdates;
      (split; [| split; [| split]]); try intros id; (split; [intros H | intros H]);
      parse_outcome.
    exists first, rest, c, tail. rewrite Hdates. repeat split; auto. discriminate.
Qed.

(** X10. When [parse_series] returns, its entries carry the raw value
    strings of the observations in row order, labelled by the periods of
    the dates pandas gave: every row is kept, except the "M13" rows of a
    monthly series, and nothing is sorted or converted at this stage. *)
Theorem parse_series_keeps_rows series first rest c tail dates :
  data series = first :: rest ->
  period first = String c tail ->
  c = "A"%char \/ c = "Q"%char \/ c = "M"%char ->
  to_datetime (date_labels c (data series)) = Some dates ->
  List.length dates = List.length (data series) ->
  let kept := if (c =? "M")%char then filter not_M13 (data series) else data series in
  exists out,
    parse_series to_datetime series = Ok out /\
    map snd out = map value kept /\
    List.length out = List.length kept /\
    Forall (fun entry => exists d, In d dates /\ fst entry = to_period (freq_of c) d) out.
Proof.
  intros Hdata Hfirst Hc Hdates Hlen kept.
  rewrite (parse_series_dated series first rest c tail Hdata Hfirst Hc), Hdates.
  eexists. split; [reflexivity |].
  assert (Hkept : map snd (if (c =? "M")%char
                           then filter (fun r => not_M13 (snd r)) (combine dates (data series))
                           else combine dates (data series)) = kept).
  { unfold kept. destruct (c =? "M")%char.
    - rewrite filter_on_snd, combine_snd by exact Hlen. reflexivity.
    - apply combine_snd. exact Hlen. }
  unfold value_by_period. split; [| split].
  - rewrite map_map. simpl. rewrite <- Hkept, map_map. reflexivity.
  - rewrite length_map, <- Hkept, length_map. reflexivity.
  - apply Forall_forall. intros entry Hin. apply in_map_iff in Hin.
    destruct Hin as ([d o] & <- & Hin). exists d. split; [| reflexivity].
    assert (Hcomb : In (d, o) (combine dates (data series)))
      by (destruct (c =? "M")%char; [apply filter_In in Hin; tauto | exact Hin]).
    apply in_combine_l in Hcomb. exact Hcomb.
Qed.

End ParseOutcomes.

(** X11. The labels handed to pandas.  For an annual series the label of
    a row is its year alone.  For a monthly row whose code is "M" followed
    by characters without "M" it is the year, a dash and those characters;
    for a quarterly row whose code is "Q0" followed by characters without
    "Q" it is the year, "Q" and those characters. *)
Theorem date_labels_of_well_formed_codes df :
  date_labels "A" df = map year df /\
  (Forall (fun r => exists nn, period r = String "M" nn /\ lacks "M" nn) df ->
   date_labels "M" df
   = map (fun r => (year r ++ "-" ++ after_letter (period r))%string) df) /\
  (Forall (fun r => exists n, period r = String "Q" (String "0" n) /\ lacks "Q" n) df ->
   date_labels "Q" df
   = map (fun r => (year r ++ "Q" ++ after_letter (after_letter (period r)))%string) df).
Proof.
  split; [reflexivity | split]; intros Hall; unfold date_labels; simpl;
    apply map_ext_in; intros r Hr; rewrite Forall_forall in Hall;
    destruct (Hall r Hr) as (t & Hp & Hlacks).
  - unfold month_label, replace. rewrite Hp. simpl.
    rewrite replace_absent by exact Hlacks. destruct t; reflexivity.
  - unfold replace. rewrite Hp. simpl.
    rewrite replace_absent by exact Hlacks. destruct t; reflexivity.
Qed.

(** ** More on [get_series] *)

Lemma dict_set_key_order {V} (d : list (string * V)) k v :
  map fst (dict_set d k v)
  = if in_dec string_dec k (map fst d) then map fst d else map fst d ++ [k].
Proof.
  induction d as [| [k' v'] d IH]; simpl; [reflexivity |].
  destruct (String.eqb_spec k' k) as [Heq | Hne]; simpl.
  - destruct (string_dec k' k); [reflexivity | contradiction].
  - rewrite IH. destruct (string_dec k' k); [contradiction |].
    destruct (in_dec string_dec k (map fst d)); reflexivity.
Qed.

Section GetSeriesMore.

Variable remote : list FormData -> FormData -> option Envelope.
Variable to_datetime : list string -> option (list Timestamp).
Variable Float : Type.
Variable float : string -> option Float.
Variable nan : Float.

Lemma parsed_columns_key_order results :
  forall d0 d done,
    parsed_columns to_datetime results d0 = Ok d ->
    map fst d0 = first_seen (map seriesID (filter has_data done)) ->
    map fst d = first_seen (map seriesID (filter has_data (done ++ results))).
Proof.
  induction results as [| res results IH]; simpl; intros d0 d done Hd Hd0.
  - inversion Hd; subst. rewrite app_nil_r. exact Hd0.
  - replace (done ++ res :: results) with ((done ++ [res]) ++ results)
      by (rewrite <- app_assoc; reflexivity).
    destruct (data res) as [| o l] eqn:Hdata.
    + apply (IH _ _ _ Hd). rewrite filter_app. simpl. unfold has_data at 2.
      rewrite Hdata, app_nil_r. exact Hd0.
    + destruct (parse_series to_datetime res) as [s | e]; [| discriminate].
      apply (IH _ _ _ Hd). rewrite filter_app. simpl. unfold has_data at 2.
      rewrite Hdata, map_app. cbn [map]. rewrite first_seen_snoc, dict_set_key_order, Hd0.
      destruct (in_dec string_dec (seriesID res)
                  (first_seen (map seriesID (filter has_data done)))) as [H | H];
        destruct (in_dec string_dec (seriesID res) (map seriesID (filter has_data done)))
          as [H' | H']; try reflexivity; exfalso.
      * apply H'. apply first_seen_In. exact H.
      * apply H. apply first_seen_In. exact H'.
Qed.

(** X12. What [get_series] returns for a sequence of ids is a frame whose
    columns are the ids of the returned series that have data, each once,
    in the order of their first occurrence, and whose rows are in ascending
    order of their period labels. *)
Theorem get_series_frame_shape l sy ey key errors w results w1 ret w' :
  get_json_series remote (Seq l) sy ey key w = (Ok results, w1) ->
  get_series remote to_datetime float nan (Seq l) sy ey key errors w = (Ok ret, w') ->
  exists df,
    ret = ReturnedFrame df /\
    columns df = first_seen (map seriesID (filter has_data results)) /\
    NoDup (columns df) /\
    ascending (rows df).
Proof.
  intros Hjson Hget. rewrite (get_series_eq _ _ _ _ _ _ _ _ _ errors _ _ _ Hjson) in Hget.
  assert (Hasm : assemble to_datetime float nan (Seq l) results = Ok ret).
  { destruct (invalid_ids results); [inversion Hget; reflexivity |].
    destruct (is_str (Seq l) || _ || _); [discriminate | inversion Hget; reflexivity]. }
  clear Hget. unfold assemble in Hasm.
  destruct (parsed_columns to_datetime results []) as [d | e1] eqn:H1; [| discriminate].
  destruct (DataFrame_from_dict d) as [df | e2] eqn:H2; [| discriminate].
  destruct (map_float float nan df) as [df' | e3] eqn:H3; [| discriminate].
  simpl in Hasm. inversion Hasm; subst ret. eexists. split; [reflexivity |].
  assert (Hcols : columns (sort_index df')
                  = first_seen (map seriesID (filter has_data results))).
  { simpl. rewrite (map_float_columns _ _ _ _ _ H3), (DataFrame_from_dict_columns _ _ H2).
    apply (parsed_columns_key_order results [] d [] H1). reflexivity. }
  split; [exact Hcols | split].
  - rewrite Hcols. unfold first_seen. apply NoDup_rev. apply NoDup_nodup.
  - simpl. apply sort_rows_ascending.
Qed.

(** X13. [get_series] posts no request and logs nothing of its own, leaves
    the key holder and the clock alone, and gives at most one message to
    [warnings.warn]; an exception of [get_json_series] goes through
    unchanged, before anything is parsed. *)
Theorem get_series_effects series sy ey key errors w :
  let wj := snd (get_json_series remote series sy ey key w) in
  let w' := snd (get_series remote to_datetime float nan series sy ey key errors w) in
  KEY_key w' = KEY_key w /\
  today_year w' = today_year w /\
  posted w' = posted wj /\
  log_warning w' = log_warning wj /\
  (warnings_warn w' = warnings_warn w \/
   exists ids, ids <> [] /\ warnings_warn w' = warnings_warn w ++ [NoDataIds ids]) /\
  (forall ex,
     fst (get_json_series remote series sy ey key w) = Raise ex ->
     get_series remote to_datetime float nan series sy ey key errors w = (Raise ex, wj)).
Proof.
  pose proof (get_json_series_frame remote series sy ey key w) as (Hk & Ht & Hw & _).
  destruct (get_json_series remote series sy ey key w) as [[results | ex0] w1] eqn:Hjson;
    simpl in Hk, Ht, Hw; cbv zeta.
  - rewrite (get_series_eq _ _ _ _ _ _ _ _ _ errors _ _ _ Hjson). simpl fst. simpl snd.
    destruct (invalid_ids results) as [| i ids] eqn:Hinv.
    + simpl. repeat split; auto. discriminate.
    + destruct (is_str series || _ || _); simpl.
      * repeat split; auto. discriminate.
      * rewrite Hw. repeat split; auto; [| discriminate].
        right. exists (i :: ids). split; [discriminate | reflexivity].
  - unfold get_series, bind. rewrite Hjson. simpl.
    repeat split; auto. intros ex Hex. inversion Hex. reflexivity.
Qed.

(** X14. When every returned series has data the [errors] argument plays
    no part: no warning is given and the outcome is the same for every
    value of [errors]. *)
Theorem errors_unused_without_empty_series series sy ey key w results w1 :
  get_json_series remote series sy ey key w = (Ok results, w1) ->
  Forall (fun res => data res <> []) results ->
  forall errors errors',
    get_series remote to_datetime float nan series sy ey key errors w
    = get_series remote to_datetime float nan series sy ey key errors' w /\
    snd (get_series remote to_datetime float nan series sy ey key errors w) = w1.
Proof.
  intros Hjson Hall errors errors'.
  assert (Hinv : invalid_ids results = []).
  { unfold invalid_ids. clear Hjson.
    induction Hall as [| res results Hres _ IH]; simpl; [reflexivity |].
    destruct (data res); [congruence | exact IH]. }
  rewrite !(get_series_eq _ _ _ _ _ _ _ _ _ _ _ _ _ Hjson), Hinv. split; reflexivity.
Qed.

(** X15. When the provider answers with success and no series at all,
    [get_series] raises an [IndexError] for a bare string (there is no
    first column) and returns the empty frame for a sequence; no warning
    is given in either case. *)
Theorem get_series_on_empty_answer series sy ey key errors w w1 :
  get_json_series remote series sy ey key w = (Ok [], w1) ->
  get_series remote to_datetime float nan series sy ey key errors w
  = (if is_str series then Raise IndexError else Ok (ReturnedFrame (mkDataFrame [] [])), w1).
Proof.
  intros Hjson. rewrite (get_series_eq _ _ _ _ _ _ _ _ _ errors _ _ _ Hjson). simpl.
  unfold assemble. simpl. destruct (is_str series); reflexivity.
Qed.

Lemma cast_stops_at_first_rejected (pre post : Series string) p v :
  Forall (fun pv => float (snd pv) <> None) pre ->
  float v = None ->
  traverse (fun r => match traverse (float_cell float nan) (snd r) with
                     | Raise e => Raise e
                     | Ok cells => Ok (fst r, cells)
                     end)
    (map (fun pv => (fst pv, [Some (snd pv)])) (pre ++ (p, v) :: post))
  = Raise (ValueError (FloatConversion v)).
Proof.
  intros Hpre Hv. induction Hpre as [| [q u] pre Hu _ IH]; simpl.
  - rewrite Hv. reflexivity.
  - simpl in Hu. destruct (float u); [| congruence]. simpl. rewrite IH. reflexivity.
Qed.

(** X16. A value that [float] rejects aborts the call: when the provider
    returns one series with data that parses, and some value of it is not
    accepted by [float], [get_series] raises the [ValueError] of the first
    such value in row order and returns nothing. *)
Theorem get_series_rejected_value series sy ey key errors w res w1 pre p v post :
  get_json_series remote series sy ey key w = (Ok [res], w1) ->
  data res <> [] ->
  parse_series to_datetime res = Ok (pre ++ (p, v) :: post) ->
  Forall (fun pv => float (snd pv) <> None) pre ->
  float v = None ->
  get_series remote to_datetime float nan series sy ey key errors w
  = (Raise (ValueError (FloatConversion v)), w1).
Proof.
  intros Hjson Hdata Hparse Hpre Hv.
  rewrite (get_series_eq _ _ _ _ _ _ _ _ _ errors _ _ _ Hjson).
  unfold invalid_ids, assemble. simpl. destruct (data res); [congruence |]. simpl.
  rewrite Hparse. simpl. rewrite index_eqb_refl. simpl.
  unfold map_float. simpl.
  rewrite positional_rows_single, (cast_stops_at_first_rejected pre post p v Hpre Hv).
  reflexivity.
Qed.

End GetSeriesMore.

(** ** Defaults, and a bare string given to [_get_json_subset] *)

Lemma comma_join_chars_length c s :
  String.length (String.concat "," (chars (String c s))) = (2 * String.length s + 1)%nat.
Proof.
  revert c. induction s as [| c' s IH]; intros c; [reflexivity |].
  change (chars (String c (String c' s)))
    with (String c EmptyString :: chars (String c' s)).
  change (String.concat "," (String c EmptyString :: chars (String c' s)))
    with (String c (String "," (String.concat "," (chars (String c' s))))).
  cbn [String.length]. rewrite IH. lia.
Qed.

Section Defaults.

Variable remote : list FormData -> FormData -> option Envelope.

(** X17. With neither year given, [get_json_series] posts exactly one
    request, ending in the current year and starting 9 years before it
    without a key, 19 years before it with one, and carrying the key in
    force. *)
Theorem default_years_are_one_request series key w :
  posted (snd (get_json_series remote series None None key w))
  = posted w ++ [mkFormData (comma_join (as_sequence series))
                   (today_year w - match current_key key w with None => 9 | Some _ => 19 end)
                   (today_year w) (current_key key w)].
Proof.
  rewrite get_json_series_single.
  - rewrite get_json_subset_posted. reflexivity.
  - unfold resolved_years, resolve_startyear, resolve_endyear. simpl.
    destruct (current_key key w); lia.
  - intros Hk. unfold resolved_years, resolve_startyear, resolve_endyear. simpl.
    rewrite Hk. lia.
Qed.

(** X18. [_get_json_subset] does not wrap a bare string: given a string
    of two characters or more it asks for each character as a series id,
    so the [seriesid] it posts has [2n - 1] characters for a string of [n]
    and is not the string. *)
Theorem get_json_subset_splits_bare_string s a b key w :
  (2 <= String.length s)%nat ->
  exists c,
    posted (snd (_get_json_subset remote (Bare s) a b key w)) = posted w ++ [c] /\
    String.length (seriesid c) = (2 * String.length s - 1)%nat /\
    seriesid c <> s.
Proof.
  intros Hlen. exists (form_of (Bare s) key (a, b)).
  split; [apply get_json_subset_posted |].
  assert (Hjoin : String.length (comma_join (Bare s)) = (2 * String.length s - 1)%nat).
  { destruct s as [| c s]; [simpl in Hlen; lia |].
    unfold comma_join. rewrite comma_join_chars_length. cbn [String.length]. lia. }
  unfold form_of. cbn [seriesid]. split; [exact Hjoin |].
  intros Heq. rewrite Heq in Hjoin. lia.
Qed.

End Defaults.

(** ** Runs of the further properties on the sample collaborators *)


Lemma get_json_series_request_count_witness :
  let w := Sample.world None in
  let call := get_json_series Sample.echo (Bare "LNS14000000") (Some 1960) None
                (Some "k") w in
  current_key (Some "k") w = Some "k" /\
  resolved_years (Some 1960) None (Some "k") w = (1960, 2024) /\
  2024 - 1960 >= 20 /\
  call = (fst call, snd call) /\
  exists issued,
    posted (snd call) = posted w ++ issued /\ Z.of_nat (List.length issued) = 4.
Proof.
  intros w call.
  assert (H1 : current_key (Some "k") w = Some "k") by reflexivity.
  assert (H2 : resolved_years (Some 1960) None (Some "k") w = (1960, 2024)) by reflexivity.
  assert (H3 : 2024 - 1960 >= 20) by lia.
  assert (H4 : call = (fst call, snd call)) by reflexivity.
  destruct (get_json_series_request_count Sample.echo (Bare "LNS14000000") (Some 1960)
              None (Some "k") w "k" 1960 2024 (fst call) (snd call) H1 H2 H3 H4)
    as (issued & Hpost & _ & Hexact).
  split; [exact H1 | split; [exact H2 | split; [exact H3 | split; [exact H4 |]]]].
  exists issued. split; [exact Hpost |]. apply (Hexact _ eq_refl).
Defined.

Lemma unkeyed_open_end_is_one_request_witness :
  let w := Sample.world None in
  current_key None w = None /\
  (@None Z = None \/ exists y, @None Z = Some y /\ y > today_year w) /\
  exists c,
    posted (snd (get_json_series Sample.echo (Seq ["LNS14000000"]) (Some 1990) None None w))
    = posted w ++ [c] /\
    endyear c - startyear c <= 9.
Proof.
  intros w.
  assert (H1 : current_key None w = None) by reflexivity.
  assert (H2 : @None Z = None \/ exists y, @None Z = Some y /\ y > today_year w)
    by (left; reflexivity).
  destruct (unkeyed_open_end_is_one_request Sample.echo (Seq ["LNS14000000"]) (Some 1990)
              None None w H1 H2) as (c & Hpost & _ & Hspan & _).
  split; [exact H1 | split; [exact H2 |]]. exists c. auto.
Defined.

Lemma future_start_posts_inverted_range_witness :
  let w := Sample.world (Some "k") in
  0 <= today_year w /\
  2030 > today_year w /\
  exists c,
    posted (snd (get_json_series Sample.echo (Seq ["LNS14000000"]) (Some 2030) None None w))
    = posted w ++ [c] /\
    startyear c = 2030 /\ endyear c < startyear c.
Proof.
  intros w.
  assert (H1 : 0 <= today_year w) by (simpl; lia).
  assert (H2 : 2030 > today_year w) by (simpl; lia).
  split; [exact H1 | split; [exact H2 |]].
  apply (future_start_posts_inverted_range Sample.echo (Seq ["LNS14000000"]) 2030 None
           None w H1 H2).
Defined.

Lemma merge_keeps_order_and_observations_witness :
  let w := Sample.world None in
  let call := get_json_series Scenario.two_series (Seq ["A"; "B"]) (Some 1960) None
                (Some "k") w in
  let merged := match fst call with Ok m => m | Raise _ => [] end in
  current_key (Some "k") w = Some "k" /\
  resolved_years (Some 1960) None (Some "k") w = (1960, 2024) /\
  2024 - 1960 >= 20 /\
  call = (Ok merged, snd call) /\
  map seriesID merged = ["B"; "A"] /\
  List.length (flat_map data merged) = 8%nat.
Proof.
  intros w call merged.
  assert (H1 : current_key (Some "k") w = Some "k") by reflexivity.
  assert (H2 : resolved_years (Some 1960) None (Some "k") w = (1960, 2024)) by reflexivity.
  assert (H3 : 2024 - 1960 >= 20) by lia.
  assert (H4 : call = (Ok merged, snd call)) by reflexivity.
  destruct (merge_keeps_order_and_observations Scenario.two_series (Seq ["A"; "B"])
              (Some 1960) None (Some "k") w "k" 1960 2024 merged (snd call) H1 H2 H3 H4)
    as [Horder Hperm].
  split; [exact H1 | split; [exact H2 | split; [exact H3 | split; [exact H4 |]]]].
  split; [rewrite Horder; reflexivity |].
  rewrite (Permutation_length Hperm). reflexivity.
Defined.

Lemma unset_api_key_then_call_witness :
  let w := at_import Scenario.environ 2024 in
  let run := (unset_api_key ;;;
              get_json_series Sample.echo (Seq ["LNS14000000"]) (Some 2000) (Some 2015) None)
               w in
  KEY_key w = Some "from-environment" /\
  resolve_endyear (Some 2000) (Some 2015) None (today_year w)
  - resolve_startyear (Some 2000)
      (resolve_endyear (Some 2000) (Some 2015) None (today_year w)) None >= 10 /\
  fst run = Raise (ValueError MustUseKey) /\
  posted (snd run) = posted w.
Proof.
  intros w run.
  assert (H1 : KEY_key w = Some "from-environment") by reflexivity.
  assert (H2 : resolve_endyear (Some 2000) (Some 2015) None (today_year w)
               - resolve_startyear (Some 2000)
                   (resolve_endyear (Some 2000) (Some 2015) None (today_year w)) None
               >= 10) by (vm_compute; discriminate).
  destruct (unset_api_key_then_call Sample.echo (Seq ["LNS14000000"]) (Some 2000)
              (Some 2015) w) as (_ & _ & Hraise).
  split; [exact H1 | split; [exact H2 |]]. apply Hraise. exact H2.
Defined.

Lemma parse_series_keeps_rows_witness :
  let first := mkObservation "2021" "A01" "3" in
  let rest := [mkObservation "2020" "A01" "-"; mkObservation "2019" "A01" "x"] in
  let series := mkSeriesResult "S" (first :: rest) in
  let dates := [mkTimestamp 2021 1 1; mkTimestamp 2020 1 1; mkTimestamp 2019 1 1] in
  data series = first :: rest /\
  period first = String "A" "01" /\
  ("A"%char = "A"%char \/ "A"%char = "Q"%char \/ "A"%char = "M"%char) /\
  Sample.to_datetime (date_labels "A" (data series)) = Some dates /\
  List.length dates = List.length (data series) /\
  exists out,
    parse_series Sample.to_datetime series = Ok out /\
    map snd out = ["3"; "-"; "x"].
Proof.
  intros first rest series dates.
  assert (H1 : data series = first :: rest) by reflexivity.
  assert (H2 : period first = String "A" "01") by reflexivity.
  assert (H3 : "A"%char = "A"%char \/ "A"%char = "Q"%char \/ "A"%char = "M"%char)
    by (left; reflexivity).
  assert (H4 : Sample.to_datetime (date_labels "A" (data series)) = Some dates)
    by reflexivity.
  assert (H5 : List.length dates = List.length (data series)) by reflexivity.
  destruct (parse_series_keeps_rows Sample.to_datetime series first rest "A" "01" dates
              H1 H2 H3 H4 H5) as (out & Hparse & Hvalues & _).
  split; [exact H1 | split; [exact H2 | split; [exact H3 | split; [exact H4 |]]]].
  split; [exact H5 |]. exists out. split; [exact Hparse | exact Hvalues].
Defined.

Lemma date_labels_of_well_formed_codes_witness :
  let df := [mkObservation "2020" "M13" "7"; mkObservation "2020" "M07" "5"] in
  Forall (fun r => exists nn, period r = String "M" nn /\ lacks "M" nn) df /\
  date_labels "M" df = ["2020-13"; "2020-07"].
Proof.
  intros df.
  assert (H : Forall (fun r => exists nn, period r = String "M" nn /\ lacks "M" nn) df).
  { repeat constructor.
    - exists "13". split; [reflexivity |]. simpl. repeat split; discriminate.
    - exists "07". split; [reflexivity |]. simpl. repeat split; discriminate. }
  split; [exact H |].
  destruct (date_labels_of_well_formed_codes df) as (_ & Hmonth & _).
  rewrite (Hmonth H). reflexivity.
Defined.

Lemma get_series_frame_shape_witness :
  let w := Sample.world None in
  let l := ["ABC"; "DEF"] in
  let results := [mkSeriesResult "ABC" [];
                  mkSeriesResult "DEF" [mkObservation "2020" "Q03" "5"]] in
  let w1 := mkWorld None 2024 [mkFormData "ABC,DEF" 2015 2020 None] [] [] in
  let call := get_series Sample.known_DEF Sample.to_datetime Sample.float Sample.nan
                (Seq l) (Some 2015) (Some 2020) None "ignore" w in
  let ret := ReturnedFrame
               (mkDataFrame ["DEF"] [(mkPeriod FreqQ 2020 3, [Some 5])]) in
  get_json_series Sample.known_DEF (Seq l) (Some 2015) (Some 2020) None w
  = (Ok results, w1) /\
  call = (Ok ret, snd call) /\
  exists df, ret = ReturnedFrame df /\ columns df = ["DEF"] /\ ascending (rows df).
Proof.
  intros w l results w1 call ret.
  assert (H1 : get_json_series Sample.known_DEF (Seq l) (Some 2015) (Some 2020) None w
               = (Ok results, w1)) by reflexivity.
  assert (H2 : call = (Ok ret, snd call)) by reflexivity.
  destruct (get_series_frame_shape Sample.known_DEF Sample.to_datetime Sample.Float
              Sample.float Sample.nan l (Some 2015) (Some 2020) None "ignore" w results w1
              ret (snd call) H1 H2) as (df & Hret & Hcols & _ & Hasc).
  split; [exact H1 | split; [exact H2 |]].
  exists df. split; [exact Hret | split; [exact (eq_trans Hcols eq_refl) | exact Hasc]].
Defined.

Lemma errors_unused_without_empty_series_witness :
  let w := Sample.world None in
  let res := mkSeriesResult "LNS14000000"
               [mkObservation "2020" "M02" "2"; mkObservation "2020" "M01" "1"] in
  let w1 := mkWorld None 2024 [mkFormData "LNS14000000" 2015 2020 None] ["notice"] [] in
  get_json_series Sample.echo (Seq ["LNS14000000"]) (Some 2015) (Some 2020) None w
  = (Ok [res], w1) /\
  Forall (fun r => data r <> []) [res] /\
  get_series Sample.echo Sample.to_datetime Sample.float Sample.nan
    (Seq ["LNS14000000"]) (Some 2015) (Some 2020) None "raise" w
  = get_series Sample.echo Sample.to_datetime Sample.float Sample.nan
      (Seq ["LNS14000000"]) (Some 2015) (Some 2020) None "ignore" w.
Proof.
  intros w res w1.
  assert (H1 : get_json_series Sample.echo (Seq ["LNS14000000"]) (Some 2015) (Some 2020)
                 None w = (Ok [res], w1)) by reflexivity.
  assert (H2 : Forall (fun r => data r <> []) [res])
    by (repeat constructor; discriminate).
  split; [exact H1 | split; [exact H2 |]].
  apply (errors_unused_without_empty_series Sample.echo Sample.to_datetime Sample.Float
           Sample.float Sample.nan (Seq ["LNS14000000"]) (Some 2015) (Some 2020) None w
           [res] w1 H1 H2 "raise" "ignore").
Defined.

Lemma get_series_on_empty_answer_witness :
  let w := Sample.world None in
  let w1 := mkWorld None 2024 [mkFormData "LNS14000000" 2015 2020 None] [] [] in
  get_json_series Scenario.silent (Bare "LNS14000000") (Some 2015) (Some 2020) None w
  = (Ok [], w1) /\
  get_series Scenario.silent Sample.to_datetime Sample.float Sample.nan
    (Bare "LNS14000000") (Some 2015) (Some 2020) None "ignore" w
  = (Raise IndexError, w1).
Proof.
  intros w w1.
  assert (H1 : get_json_series Scenario.silent (Bare "LNS14000000") (Some 2015)
                 (Some 2020) None w = (Ok [], w1)) by reflexivity.
  split; [exact H1 |].
  apply (get_series_on_empty_answer Scenario.silent Sample.to_datetime Sample.Float
           Sample.float Sample.nan (Bare "LNS14000000") (Some 2015) (Some 2020) None
           "ignore" w w1 H1).
Defined.

Lemma get_series_rejected_value_witness :
  let w := Sample.world None in
  let res := mkSeriesResult "S"
               [mkObservation "2021" "A01" "3"; mkObservation "2020" "A01" "-";
                mkObservation "2019" "A01" "x"] in
  let w1 := mkWorld None 2024 [mkFormData "S" 2015 2021 None] [] [] in
  let pre := [(mkPeriod FreqA_JAN 2021 0, "3")] in
  let post := [(mkPeriod FreqA_JAN 2019 0, "x")] in
  get_json_series Scenario.with_gap (Seq ["S"]) (Some 2015) (Some 2021) None w
  = (Ok [res], w1) /\
  data res <> [] /\
  parse_series Sample.to_datetime res = Ok (pre ++ (mkPeriod FreqA_JAN 2020 0, "-") :: post) /\
  Forall (fun pv => Sample.float (snd pv) <> None) pre /\
  Sample.float "-" = None /\
  get_series Scenario.with_gap Sample.to_datetime Sample.float Sample.nan
    (Seq ["S"]) (Some 2015) (Some 2021) None "ignore" w
  = (Raise (ValueError (FloatConversion "-")), w1).
Proof.
  intros w res w1 pre post.
  assert (H1 : get_json_series Scenario.with_gap (Seq ["S"]) (Some 2015) (Some 2021) None w
               = (Ok [res], w1)) by reflexivity.
  assert (H2 : data res <> []) by discriminate.
  assert (H3 : parse_series Sample.to_datetime res
               = Ok (pre ++ (mkPeriod FreqA_JAN 2020 0, "-") :: post)) by reflexivity.
  assert (H4 : Forall (fun pv => Sample.float (snd pv) <> None) pre)
    by (repeat constructor; discriminate).
  assert (H5 : Sample.float "-" = None) by reflexivity.
  split; [exact H1 | split; [exact H2 | split; [exact H3 | split; [exact H4 |]]]].
  split; [exact H5 |].
  apply (get_series_rejected_value Scenario.with_gap Sample.to_datetime Sample.Float
           Sample.float Sample.nan (Seq ["S"]) (Some 2015) (Some 2021) None "ignore" w res
           w1 pre (mkPeriod FreqA_JAN 2020 0) "-" post H1 H2 H3 H4 H5).
Defined.

Lemma get_json_subset_splits_bare_string_witness :
  (2 <= String.length "AB")%nat /\
  exists c,
    posted (snd (_get_json_subset Sample.echo (Bare "AB") 2015 2020 None
                   (Sample.world None))) = [c] /\
    seriesid c <> "AB".
Proof.
  assert (H : (2 <= String.length "AB")%nat) by (simpl; lia).
  destruct (get_json_subset_splits_bare_string Sample.echo "AB" 2015 2020 None
              (Sample.world None) H) as (c & Hpost & _ & Hne).
  split; [exact H |]. exists c. auto.
Defined.
